(** * gulp-kitchen-sink: task naming, task groups and the group loader

  A shallow embedding of the task-name resolution engine of
  gulp-kitchen-sink:

  - [BuildConfig.createTaskName]   (build-config module, src/unnamed/part_000)
  - [ActionDependency], [GulpTaskGroup]
                                   (task-group module; the repository holds two
                                    revisions of it: src/types/task-group.js and
                                    src/unnamed/part_005)
  - [GroupLoader]                  (group-loader module, src/unnamed/part_001)

  JavaScript values are embedded as an inductive type with the language's
  truthiness and string conversion written out; objects that the code
  mutates (task groups, build configs) live in a store and are passed
  around by address; code that can throw returns an [outcome]. *)

From Stdlib Require Import String Ascii List Bool Arith NArith ZArith Lia Permutation.
Import ListNotations.
Open Scope string_scope.

(* ================================================================== *)
(** ** JavaScript values *)

Module Js.

(** The primitive values the naming code is handed: the documented types
    of names and prefixes are [string], [string|boolean] and "omitted"
    ([undefined]).  Numbers are left out. *)
Inductive value :=
| VUndefined
| VNull
| VBool (b : bool)
| VString (s : string).

(** ToBoolean *)
Definition truthy (v : value) : bool :=
  match v with
  | VUndefined | VNull => false
  | VBool b => b
  | VString s => negb (s =? "")
  end.

(** ToString *)
Definition ToString (v : value) : string :=
  match v with
  | VUndefined => "undefined"
  | VNull => "null"
  | VBool true => "true"
  | VBool false => "false"
  | VString s => s
  end.

(** [a || b] *)
Definition or (a b : value) : value := if truthy a then a else b.

(** [a && b] *)
Definition and (a b : value) : value := if truthy a then b else a.

(** [a === b]; on primitives without numbers this is structural equality. *)
Definition strict_eq (a b : value) : bool :=
  match a, b with
  | VUndefined, VUndefined => true
  | VNull, VNull => true
  | VBool x, VBool y => Bool.eqb x y
  | VString x, VString y => (x =? y)
  | _, _ => false
  end.

(** [a !== b] *)
Definition strict_neq (a b : value) : bool := negb (strict_eq a b).

(** [a + s] and [s + b] where the other operand [s] is a string: the
    result is the concatenation of the string conversions. *)
Definition plus_str (a : value) (s : string) : string := ToString a ++ s.
Definition str_plus (s : string) (b : value) : string := s ++ ToString b.

(** The errors the modelled code can raise. *)
Inductive error :=
| TypeError        (* calling a non-function, reading a member of undefined,
                      assigning to a read-only inherited property *)
| ReferenceError   (* reading an undeclared variable *)
| SyntaxError      (* the Function constructor given text that does not parse *)
| ModuleNotFound.  (* require() of a path that holds no module *)

End Js.

(* ================================================================== *)
(** ** Build configuration (src/unnamed/part_000) *)

Module BuildConfig.
Import Js.

(** [const TASK_NAME_SEPARATOR = ':'] *)
Definition TASK_NAME_SEPARATOR : string := ":".

(** [this.tasks]; the [paths] and [less] members are not read by the
    naming code. *)
Record tasks_settings := {
  defaultPrefixName : value;   (* string | boolean *)
  groupBeforeAction : bool
}.

Record t := { tasks : tasks_settings }.

(** [new BuildConfig()] *)
Definition new : t :=
  {| tasks := {| defaultPrefixName := VBool false; groupBeforeAction := true |} |}.

(** [BuildConfig.prototype.createTaskName(groupName, actionName, prefixName)]
    (part_000, lines 339-356). *)
Definition createTaskName (this : t) (groupName actionName prefixName : value) : string :=
  (* var prefix = prefixName || this.tasks.defaultPrefixName; *)
  let prefix := Js.or prefixName (defaultPrefixName (tasks this)) in
  let taskName :=
    if groupBeforeAction (tasks this)
    then str_plus (plus_str groupName TASK_NAME_SEPARATOR) actionName
    else str_plus (plus_str actionName TASK_NAME_SEPARATOR) groupName in
  let taskName :=
    if truthy prefix
    then (plus_str prefix TASK_NAME_SEPARATOR ++ taskName)%string
    else taskName in
  taskName.

End BuildConfig.

(* ================================================================== *)
(** ** Plain objects used as string-keyed maps

    Both [GulpTaskGroup#_taskLoaders] and [GroupLoader#_taskGroups] are
    created by the literal [{}] and then read with [obj[key]], written with
    [obj[key] = v] and enumerated with [Object.keys] / [for ... in].  Such
    an object has its own properties, kept here in creation order, and
    inherits the members of [Object.prototype]. *)

Module PlainObject.

(** The string-keyed members of [Object.prototype] other than the
    [__proto__] accessor. *)
Definition Object_prototype_methods : list string :=
  [ "constructor"; "__defineGetter__"; "__defineSetter__"; "hasOwnProperty";
    "__lookupGetter__"; "__lookupSetter__"; "isPrototypeOf";
    "propertyIsEnumerable"; "toString"; "valueOf"; "toLocaleString" ].

(** The string-keyed properties an object finds on a function installed as
    its prototype: the function's own [length] and [name] and the members of
    [Function.prototype]. *)
Definition Function_chain_members : list string :=
  [ "length"; "name"; "arguments"; "caller"; "apply"; "bind"; "call";
    "toString"; "constructor" ].

(** Those of them an assignment through an inheriting object is refused for
    in strict code: the read-only [length] and [name], and the [arguments]
    and [caller] accessors, whose setter throws. *)
Definition Function_chain_unassignable : list string :=
  [ "length"; "name"; "arguments"; "caller" ].

Definition mem (k : string) (l : list string) : bool := existsb (String.eqb k) l.

Section OwnProperties.
Variable A : Type.

(** The own property [k], if there is one. *)
Fixpoint getOwn (k : string) (l : list (string * A)) : option A :=
  match l with
  | [] => None
  | (k', v) :: rest => if (k =? k') then Some v else getOwn k rest
  end.

Definition hasOwn (k : string) (l : list (string * A)) : bool :=
  match getOwn k l with Some _ => true | None => false end.

(** Writing an own property: an existing one keeps its place, a new one is
    created last. *)
Fixpoint putOwn (k : string) (v : A) (l : list (string * A)) : list (string * A) :=
  match l with
  | [] => [(k, v)]
  | (k', v') :: rest =>
      if (k =? k') then (k, v) :: rest else (k', v') :: putOwn k v rest
  end.

End OwnProperties.

Arguments getOwn {A} k l.
Arguments hasOwn {A} k l.
Arguments putOwn {A} k v l.

(** *** Enumeration order

    Own keys that are array indices (canonical decimal numerals below
    2^32 - 1) come first, in ascending numeric order; the other keys follow
    in creation order. *)

Definition digit (c : ascii) : option N :=
  let n := N_of_ascii c in
  if ((48 <=? n) && (n <=? 57))%N then Some (n - 48)%N else None.

Fixpoint digits (s : string) (acc : N) : option N :=
  match s with
  | EmptyString => Some acc
  | String c rest =>
      match digit c with
      | Some d => digits rest (10 * acc + d)%N
      | None => None
      end
  end.

Definition array_index (s : string) : option N :=
  match s with
  | EmptyString => None
  | String "0"%char EmptyString => Some 0%N
  | String "0"%char _ => None
  | _ => match digits s 0 with
         | Some n => if (n <? 4294967295)%N then Some n else None
         | None => None
         end
  end.

Fixpoint insert_index (x : N * string) (l : list (N * string)) : list (N * string) :=
  match l with
  | [] => [x]
  | y :: rest => if (fst x <=? fst y)%N then x :: l else y :: insert_index x rest
  end.

Definition sort_index (l : list (N * string)) : list (N * string) :=
  fold_right insert_index [] l.

Fixpoint index_keys (ks : list string) : list (N * string) :=
  match ks with
  | [] => []
  | k :: rest =>
      match array_index k with
      | Some n => (n, k) :: index_keys rest
      | None => index_keys rest
      end
  end.

Definition named_keys (ks : list string) : list string :=
  filter (fun k => match array_index k with Some _ => false | None => true end) ks.

(** [Object.keys(obj)], given the own properties in creation order. *)
Definition ownKeys {A : Type} (l : list (string * A)) : list string :=
  let ks := map fst l in
  map snd (sort_index (index_keys ks)) ++ named_keys ks.

End PlainObject.

(* ================================================================== *)
(** ** Task groups (src/types/task-group.js and src/unnamed/part_005) *)

Module ActionDependency.

(** [function ActionDependency(groupName, actionName)]; the group name may
    be left out to mean "the group the dependency is resolved in". *)
Record t := { groupName : Js.value; actionName : string }.

End ActionDependency.

Module TaskGroup.
Import Js PlainObject.

(** Addresses of task group objects and of build config objects. *)
Definition addr := nat.
Definition cfg_ref := nat.

(** The body handed to [gulp.task]: an opaque function value, never called
    by this code. *)
Inductive gulpTaskFn := TaskFn (id : nat).

(** [stringOrActionDep]: an entry of a dependency list. *)
Inductive stringOrActionDep :=
| DepString (actionName : string)
| DepAction (d : ActionDependency.t).

(** The closure built by [_createTaskLoaderFn]: the variables it captures
    and the group it is bound to with [.bind(this)]. *)
Record taskLoaderFn := {
  bound_this : addr;
  actionName : string;
  actionDeps : list stringOrActionDep;
  taskFn : gulpTaskFn
}.

(** [this._taskLoaders]: a plain object holding loader closures.  Its
    prototype is [Object.prototype] until a loader is assigned to the key
    [__proto__], which installs that loader as the prototype. *)
Inductive prototype :=
| ObjectPrototype
| LoaderPrototype (f : taskLoaderFn).

Record taskLoaders := { own : list (string * taskLoaderFn); proto : prototype }.

(** What [obj[k]] evaluates to. *)
Inductive member :=
| Loader (f : taskLoaderFn)        (* an own property, or the loader installed as prototype *)
| ObjectMethod (name : string)     (* a method inherited from Object.prototype *)
| FunctionMember (name : string)   (* a member inherited through a loader prototype *)
| TheObjectPrototype               (* Object.prototype, read through __proto__ *)
| Undefined.

(** [obj[k]] *)
Definition get (o : taskLoaders) (k : string) : member :=
  match getOwn k (own o) with
  | Some f => Loader f
  | None =>
      if (k =? "__proto__") then
        match proto o with
        | ObjectPrototype => TheObjectPrototype
        | LoaderPrototype f => Loader f
        end
      else
        match proto o with
        | LoaderPrototype _ =>
            if mem k Function_chain_members then FunctionMember k
            else if mem k Object_prototype_methods then ObjectMethod k
            else Undefined
        | ObjectPrototype =>
            if mem k Object_prototype_methods then ObjectMethod k else Undefined
        end
  end.

(** [obj[k] = f] in strict code; [None] stands for the TypeError of a
    refused assignment. *)
Definition set (o : taskLoaders) (k : string) (f : taskLoaderFn) : option taskLoaders :=
  if hasOwn k (own o) then Some {| own := putOwn k f (own o); proto := proto o |}
  else if (k =? "__proto__") then Some {| own := own o; proto := LoaderPrototype f |}
  else
    match proto o with
    | LoaderPrototype _ =>
        if mem k Function_chain_unassignable then None
        else Some {| own := putOwn k f (own o); proto := proto o |}
    | ObjectPrototype => Some {| own := putOwn k f (own o); proto := proto o |}
    end.

(** [Object.keys(obj)], and the keys [for (k in obj)] visits: neither
    prototype has enumerable members. *)
Definition keys (o : taskLoaders) : list string := ownKeys (own o).

Module GulpTaskGroup.

(** [function GulpTaskGroup(groupName, config)] *)
Record t := {
  groupName : value;
  config : cfg_ref;
  _taskLoaders : taskLoaders
}.

End GulpTaskGroup.
Import GulpTaskGroup.

(** The host.  The code asks one thing of the [gulp] it is handed, to
    register a task; the host is the list of the calls [gulp.task(name, fn)]
    ([dep = None]) and [gulp.task(name, deps, fn)] it has received, oldest
    first.  A store has one host, so the methods below take no [gulp]
    argument: every [gulp] of the source is that host. *)
Record task := { name : string; dep : option (list string); fn : gulpTaskFn }.

(** The store.  [configs 0] is the shared config of
    [require('../shared/config')]. *)
Record world := {
  configs : cfg_ref -> BuildConfig.t;
  groups : addr -> GulpTaskGroup.t;
  next_group : addr;
  gulp : list task;
  required : list string     (* the module paths the group loader has handed
                                to require(), oldest first *)
}.

Definition shared_config : cfg_ref := 0.

Definition set_group (w : world) (a : addr) (g : GulpTaskGroup.t) : world :=
  {| configs := configs w;
     groups := fun x => if Nat.eqb x a then g else groups w x;
     next_group := next_group w;
     gulp := gulp w;
     required := required w |}.

Definition alloc_group (w : world) (g : GulpTaskGroup.t) : addr * world :=
  (next_group w,
   {| configs := configs w;
      groups := fun x => if Nat.eqb x (next_group w) then g else groups w x;
      next_group := S (next_group w);
      gulp := gulp w;
      required := required w |}).

Definition gulp_task (t : task) (w : world) : world :=
  {| configs := configs w;
     groups := groups w;
     next_group := next_group w;
     gulp := gulp w ++ [t];
     required := required w |}.

Definition log_require (path : string) (w : world) : world :=
  {| configs := configs w;
     groups := groups w;
     next_group := next_group w;
     gulp := gulp w;
     required := required w ++ [path] |}.

(** A call either returns a value or throws, and leaves a store. *)
Inductive outcome (A : Type) :=
| Normal (a : A) (w : world)
| Throw (e : error) (w : world).
Arguments Normal {A} a w.
Arguments Throw {A} e w.

Definition M (A : Type) := world -> outcome A.

Definition ret {A} (a : A) : M A := fun w => Normal a w.
Definition throw {A} (e : error) : M A := fun w => Throw e w.
Definition bind {A B} (m : M A) (k : A -> M B) : M B :=
  fun w => match m w with
           | Normal a w' => k a w'
           | Throw e w' => Throw e w'
           end.

Notation "x <- m ;; k" := (bind m (fun x => k))
  (at level 61, m at next level, right associativity).
Notation "m ;;; k" := (bind m (fun _ => k))
  (at level 61, right associativity).

Definition world_of {A} (r : outcome A) : world :=
  match r with Normal _ w => w | Throw _ w => w end.

(** What a call made through [this._taskLoaders[actionName](gulp)] can hand
    back. *)
Inductive returned :=
| RValue (v : value)
| RTaskLoaders                 (* the _taskLoaders object itself *)
| RGulp.                       (* the host handle *)

(** [new GulpTaskGroup(groupName, config)] *)
Definition new (groupName : value) (config : cfg_ref) : M addr :=
  fun w =>
    let (a, w') := alloc_group w
      {| groupName := groupName; config := config;
         _taskLoaders := {| own := []; proto := ObjectPrototype |} |} in
    Normal a w'.

(** [GulpTaskGroup.prototype.listActionNames] *)
Definition listActionNames (this : addr) (w : world) : list string :=
  keys (_taskLoaders (groups w this)).

(** [GulpTaskGroup.prototype.getActionDep] *)
Definition getActionDep (this : addr) (actionName : string) (w : world) : ActionDependency.t :=
  {| ActionDependency.groupName := groupName (groups w this);
     ActionDependency.actionName := actionName |}.

(** [GulpTaskGroup.prototype.createTaskName]:
    [return this.config.createTaskName(this.groupName, actionName);] *)
Definition createTaskName (this : addr) (actionName : string) (w : world) : string :=
  let g := groups w this in
  BuildConfig.createTaskName (configs w (config g)) (groupName g) (VString actionName) VUndefined.

(** [ActionDependency.prototype.isExternalTo]:
    [return this.groupName && this.groupName !== gulpTaskGroup.groupName;] *)
Definition ActionDependency_isExternalTo
    (this : ActionDependency.t) (gulpTaskGroup : addr) (w : world) : value :=
  Js.and (ActionDependency.groupName this)
         (VBool (strict_neq (ActionDependency.groupName this)
                            (groupName (groups w gulpTaskGroup)))).

(** [ActionDependency.prototype.createTaskName] *)
Definition ActionDependency_createTaskName
    (this : ActionDependency.t) (gulpTaskGroup : addr) (w : world) : string :=
  if truthy (ActionDependency_isExternalTo this gulpTaskGroup w)
  then BuildConfig.createTaskName (configs w (config (groups w gulpTaskGroup)))
         (ActionDependency.groupName this)
         (VString (ActionDependency.actionName this)) VUndefined
  else createTaskName gulpTaskGroup (ActionDependency.actionName this) w.

(** [GulpTaskGroup.prototype.resolveDepNames]: the loop pushes one resolved
    name per entry. *)
Fixpoint resolveDepNames_loop (this : addr) (deps : list stringOrActionDep)
    (resolvedDeps : list string) (w : world) : list string :=
  match deps with
  | [] => resolvedDeps
  | dep :: rest =>
      let resolved :=
        match dep with
        | DepAction d => ActionDependency_createTaskName d this w
        | DepString s => createTaskName this s w
        end in
      resolveDepNames_loop this rest (resolvedDeps ++ [resolved]) w
  end.

Definition resolveDepNames (this : addr) (deps : list stringOrActionDep) (w : world)
    : list string :=
  resolveDepNames_loop this deps [] w.

(** [GulpTaskGroup.prototype._createTaskLoaderFn] *)
Definition _createTaskLoaderFn (this : addr) (actionName : string)
    (actionDeps : list stringOrActionDep) (taskFn : gulpTaskFn) : taskLoaderFn :=
  {| bound_this := this; actionName := actionName;
     actionDeps := actionDeps; taskFn := taskFn |}.

(** The two documented ways of calling [addAction]. *)
Inductive addAction_arguments :=
| Args2 (actionName : string) (fn : gulpTaskFn)
| Args3 (actionName : string) (deps : list stringOrActionDep) (fn : gulpTaskFn).

(** How [addAction] reads its arguments: with two of them the dependency
    list is empty. *)
Definition addAction_parameters (arguments : addAction_arguments)
    : string * list stringOrActionDep * gulpTaskFn :=
  match arguments with
  | Args2 a f => (a, [], f)
  | Args3 a d f => (a, d, f)
  end.

(** [GulpTaskGroup.prototype.addAction] *)
Definition addAction (this : addr) (arguments : addAction_arguments) : M unit :=
  fun w =>
    let '(actionName, actionDeps, taskFn) := addAction_parameters arguments in
    let g := groups w this in
    match set (_taskLoaders g) actionName
              (_createTaskLoaderFn this actionName actionDeps taskFn) with
    | Some o =>
        Normal tt (set_group w this
          {| groupName := groupName g; config := config g; _taskLoaders := o |})
    | None => Throw TypeError w
    end.

(** The argument a loader closure is called with: the host handle, or
    nothing when a built-in calls it back without arguments. *)
Inductive hostArg := GulpInstance | NoArgument.

(** A built-in either returns or raises. *)
Inductive completion := Return (r : returned) | Raise (e : error).

(** Calling a method inherited from [Object.prototype] with the object [o]
    as receiver and the host handle as only argument.  The host handle is an
    ordinary object, so as a property key it reads ["[object Object]"]. *)
Definition call_ObjectMethod (m : string) (o : taskLoaders) : completion :=
  if (m =? "toString") then Return (RValue (VString "[object Object]"))
  else if (m =? "toLocaleString") then
    (* calls o.toString() without arguments *)
    match get o "toString" with
    | ObjectMethod _ => Return (RValue (VString "[object Object]"))
    | _ => Raise TypeError   (* a loader called without a host, or
                                Function.prototype.toString on a non-function *)
    end
  else if (m =? "valueOf") then Return RTaskLoaders
  else if (m =? "constructor") then Return RGulp
  else if (m =? "hasOwnProperty") || (m =? "propertyIsEnumerable") then
    Return (RValue (VBool (hasOwn "[object Object]" (own o))))
  else if (m =? "isPrototypeOf") then Return (RValue (VBool false))
  else if (m =? "__lookupGetter__") || (m =? "__lookupSetter__") then
    Return (RValue VUndefined)
  else Raise TypeError.   (* __defineGetter__, __defineSetter__: no function given *)

(** Calling a member found through a loader prototype: [length] and [name]
    are not functions, [arguments] and [caller] throw on access, [apply],
    [bind], [call] and [toString] reject a receiver that is not a function,
    and [constructor] is [Function], which cannot parse the host handle's
    string conversion as a function body. *)
Definition call_FunctionMember (m : string) : error :=
  if (m =? "constructor") then SyntaxError else TypeError.

(** *** Revision src/types/task-group.js *)

Module Types.

(** The closure returned by [_createTaskLoaderFn] (lines 378-397): it
    registers the task and returns nothing. *)
Definition taskLoaderFn_call (f : taskLoaderFn) (gulp : hostArg) : M returned :=
  fun w =>
    let this := bound_this f in
    let taskName := createTaskName this (actionName f) w in
    match actionDeps f with
    | _ :: _ =>
        let taskDeps := resolveDepNames this (actionDeps f) w in
        match gulp with
        | GulpInstance =>
            Normal (RValue VUndefined)
              (gulp_task {| name := taskName; dep := Some taskDeps; fn := taskFn f |} w)
        | NoArgument => Throw TypeError w
        end
    | [] =>
        match gulp with
        | GulpInstance =>
            Normal (RValue VUndefined)
              (gulp_task {| name := taskName; dep := None; fn := taskFn f |} w)
        | NoArgument => Throw TypeError w
        end
    end.

(** [GulpTaskGroup.prototype.loadTask] (lines 413-415):
    [this._taskLoaders[actionName](gulp);] *)
Definition loadTask (this : addr) (actionName : string) : M returned :=
  fun w =>
    let o := _taskLoaders (groups w this) in
    let called :=
      match get o actionName with
      | Loader f => taskLoaderFn_call f GulpInstance w
      | ObjectMethod m =>
          match call_ObjectMethod m o with
          | Return r => Normal r w
          | Raise e => Throw e w
          end
      | FunctionMember m => Throw (call_FunctionMember m) w
      | TheObjectPrototype | Undefined => Throw TypeError w
      end in
    match called with
    | Normal _ w' => Normal (RValue VUndefined) w'
    | Throw e w' => Throw e w'
    end.

(** [GulpTaskGroup.prototype.loadAllTasks] (lines 428-433) *)
Fixpoint loadAllTasks_loop (this : addr) (actionNames : list string) : M unit :=
  match actionNames with
  | [] => ret tt
  | actionName :: rest =>
      loadTask this actionName ;;; loadAllTasks_loop this rest
  end.

Definition loadAllTasks (this : addr) : M (option (list returned)) :=
  fun w =>
    (loadAllTasks_loop this (keys (_taskLoaders (groups w this))) ;;; ret None) w.

(** The function returned by [GulpTaskGroup.createTasksModule] (lines
    453-478), called as [(gulp, lazyLoad, config, ...ignored)].  Its
    condition reads [lazyload], a name no scope declares. *)
Definition tasksModuleFn_call (groupName : value) (addActionsFn : option (addr -> M unit))
    (lazyLoad : value) (config : option cfg_ref) (ignored : list value) : M addr :=
  let config := match config with Some c => c | None => shared_config end in
  tasks <- new groupName config ;;
  (match addActionsFn with
   | Some f => f tasks
   | None => ret tt
   end) ;;;
  (* if(!lazyload) *)
  throw ReferenceError.

End Types.

(** *** Revision src/unnamed/part_005 *)

Module Part005.

(** The closure returned by [_createTaskLoaderFn] (lines 355-375): it
    registers the task and returns its name. *)
Definition taskLoaderFn_call (f : taskLoaderFn) (gulp : hostArg) : M returned :=
  fun w =>
    let this := bound_this f in
    let taskName := createTaskName this (actionName f) w in
    match actionDeps f with
    | _ :: _ =>
        let taskDeps := resolveDepNames this (actionDeps f) w in
        match gulp with
        | GulpInstance =>
            Normal (RValue (VString taskName))
              (gulp_task {| name := taskName; dep := Some taskDeps; fn := taskFn f |} w)
        | NoArgument => Throw TypeError w
        end
    | [] =>
        match gulp with
        | GulpInstance =>
            Normal (RValue (VString taskName))
              (gulp_task {| name := taskName; dep := None; fn := taskFn f |} w)
        | NoArgument => Throw TypeError w
        end
    end.

(** [GulpTaskGroup.prototype.loadTask] (lines 393-395):
    [return this._taskLoaders[actionName](gulp);] *)
Definition loadTask (this : addr) (actionName : string) : M returned :=
  fun w =>
    let o := _taskLoaders (groups w this) in
    match get o actionName with
    | Loader f => taskLoaderFn_call f GulpInstance w
    | ObjectMethod m =>
        match call_ObjectMethod m o with
        | Return r => Normal r w
        | Raise e => Throw e w
        end
    | FunctionMember m => Throw (call_FunctionMember m) w
    | TheObjectPrototype | Undefined => Throw TypeError w
    end.

(** [GulpTaskGroup.prototype.loadAllTasks] (lines 410-417) *)
Fixpoint loadAllTasks_loop (this : addr) (actionNames : list string)
    (taskNames : list returned) : M (list returned) :=
  match actionNames with
  | [] => ret taskNames
  | actionName :: rest =>
      r <- loadTask this actionName ;;
      loadAllTasks_loop this rest (taskNames ++ [r])
  end.

Definition loadAllTasks (this : addr) : M (option (list returned)) :=
  fun w =>
    (taskNames <- loadAllTasks_loop this (keys (_taskLoaders (groups w this))) [] ;;
     ret (Some taskNames)) w.

(** The function returned by [GulpTaskGroup.createTasksModule] (lines
    477-502), called as [(gulp, lazyLoad, config, ...ignored)]. *)
Definition tasksModuleFn_call (groupName : value) (addActionsFn : option (addr -> M unit))
    (lazyLoad : value) (config : option cfg_ref) (ignored : list value) : M addr :=
  let config := match config with Some c => c | None => shared_config end in
  tasks <- new groupName config ;;
  (match addActionsFn with
   | Some f => f tasks
   | None => ret tt
   end) ;;;
  (if negb (truthy lazyLoad)
   then loadAllTasks tasks ;;; ret tt
   else ret tt) ;;;
  ret tasks.

End Part005.

(** A tasks module function: the closure [createTasksModule] returns, of
    either revision. *)
Inductive revision := types_task_group | part_005.

Record tasksModuleFn := {
  made_by : revision;
  fallbackGroupName : value;
  addActionsFn : option (addr -> M unit)
}.

(** [GulpTaskGroup.createTasksModule(groupName, addActionsFn)] *)
Definition createTasksModule (r : revision) (groupName : value)
    (addActionsFn : option (addr -> M unit)) : tasksModuleFn :=
  {| made_by := r; fallbackGroupName := groupName; addActionsFn := addActionsFn |}.

(** Calling a tasks module function. *)
Definition tasksModuleFn_call (f : tasksModuleFn)
    (lazyLoad : value) (config : option cfg_ref) (ignored : list value) : M addr :=
  match made_by f with
  | types_task_group =>
      Types.tasksModuleFn_call (fallbackGroupName f) (addActionsFn f) lazyLoad config ignored
  | part_005 =>
      Part005.tasksModuleFn_call (fallbackGroupName f) (addActionsFn f) lazyLoad config ignored
  end.

(** *** Vocabulary of the statements below *)

(** The value a call returned, and the error it threw. *)
Definition value_of {A} (r : outcome A) : option A :=
  match r with Normal a _ => Some a | Throw _ _ => None end.

Definition thrown {A} (r : outcome A) : option error :=
  match r with Normal _ _ => None | Throw e _ => Some e end.

(** The store with further host calls appended. *)
Definition gulp_tasks (ts : list task) (w : world) : world :=
  {| configs := configs w;
     groups := groups w;
     next_group := next_group w;
     gulp := gulp w ++ ts;
     required := required w |}.

(** The host call a loader closure makes when it runs in [w]. *)
Definition loader_task (f : taskLoaderFn) (w : world) : task :=
  {| name := createTaskName (bound_this f) (actionName f) w;
     dep := match actionDeps f with
            | [] => None
            | _ :: _ => Some (resolveDepNames (bound_this f) (actionDeps f) w)
            end;
     fn := taskFn f |}.

(** The loader closures [_taskLoaders] holds, in enumeration order. *)
Definition loaders_of (o : taskLoaders) (ks : list string) : list taskLoaderFn :=
  flat_map (fun k => match getOwn k (own o) with Some f => [f] | None => [] end) ks.

(** The shape every [_taskLoaders] built through [new] and [addAction] has:
    own keys are distinct, and the closure stored under a key was made by
    this group for that action name. *)
Definition wf_group (w : world) (this : addr) : Prop :=
  let o := _taskLoaders (groups w this) in
  NoDup (map fst (own o)) /\
  Forall (fun kf => bound_this (snd kf) = this /\ actionName (snd kf) = fst kf) (own o).

(** Whether [obj[k]] finds [k] on the prototype chain of [_taskLoaders]. *)
Definition inherited (p : prototype) (k : string) : bool :=
  (k =? "__proto__") || mem k Object_prototype_methods ||
  match p with
  | ObjectPrototype => false
  | LoaderPrototype _ => mem k Function_chain_members
  end.

(** Two stores that differ at most in the host's call log. *)
Definition same_objects (w w' : world) : Prop :=
  configs w' = configs w /\ groups w' = groups w /\
  next_group w' = next_group w /\ required w' = required w.

(** Between [w] and [w'] the group [g] kept its name, its config reference
    and its actions, no other object changed, and the host received the
    calls it had, then possibly more. *)
Definition only_registers (g : addr) (w w' : world) : Prop :=
  groupName (groups w' g) = groupName (groups w g) /\
  config (groups w' g) = config (groups w g) /\
  _taskLoaders (groups w' g) = _taskLoaders (groups w g) /\
  same_objects w w' /\
  exists ts, gulp w' = (gulp w ++ ts)%list.

(** A store to run examples in: every config is a fresh [BuildConfig], no
    group has been made, the host has received no call. *)
Definition initial : world :=
  {| configs := fun _ => BuildConfig.new;
     groups := fun _ => {| groupName := VUndefined; config := shared_config;
                           _taskLoaders := {| own := []; proto := ObjectPrototype |} |};
     next_group := 0;
     gulp := [];
     required := [] |}.

(** The spec's scenario: a group ["less"] with the actions ["build"] and
    ["hint"], neither with dependencies. *)
Definition less_actions (tasks : addr) : M unit :=
  addAction tasks (Args2 "build" (TaskFn 1)) ;;;
  addAction tasks (Args2 "hint" (TaskFn 2)).

Definition less_group : M addr :=
  tasks <- new (VString "less") shared_config ;;
  less_actions tasks ;;;
  ret tasks.

(** The callback of the repository's test of [createTasksModule]
    (src/unnamed/part_006): it adds one action. *)
Definition test_addActions (tasks : addr) : M unit :=
  addAction tasks (Args2 "test-action" (TaskFn 0)).

End TaskGroup.

(* ================================================================== *)
(** ** Group loader (src/unnamed/part_001) *)

Module GroupLoader.
Import Js PlainObject TaskGroup.

(** [function GroupLoader(gulp, config, modulesDir)]; [_taskGroups] is a
    plain object whose own properties are task group objects. *)
Record t := {
  config : cfg_ref;
  modulesDir : string;
  _taskGroups : list (string * addr)
}.

(** The constructor; [TASK_MODULES_DIR] is [path.join(__dirname, '../tasks/')],
    which depends on where the package is installed. *)
Definition new (TASK_MODULES_DIR : string) (config : cfg_ref) (modulesDir : value) : t :=
  {| config := config;
     modulesDir := ToString (Js.or modulesDir (VString TASK_MODULES_DIR));
     _taskGroups := [] |}.

(** [GroupLoader.prototype._getModuleName] *)
Definition _getModuleName (this : t) (groupName : string) : string :=
  modulesDir this ++ groupName ++ "-tasks".

(** What [getTaskGroup] can return: a cached or freshly made task group, or
    a member [_taskGroups] inherits. *)
Inductive result :=
| Group (a : addr)
| Inherited (name : string).   (* the Object.prototype member of that name;
                                  for "__proto__", Object.prototype itself *)

(** The modules found on disk: [require(path)] yields the tasks module
    function exported at [path], or throws. *)
Definition modules := string -> option tasksModuleFn.

Definition require (fs : modules) (path : string) : M tasksModuleFn :=
  fun w =>
    match fs path with
    | Some f => Normal f (log_require path w)
    | None => Throw ModuleNotFound (log_require path w)
    end.

(** [GroupLoader.prototype.getTaskGroup] (lines 108-114); the loader after
    the call is returned next to the result, and is the one passed in when
    the call throws. *)
Definition getTaskGroup (fs : modules) (this : t) (groupName : string) : M (result * t) :=
  (* var taskGroup = this._taskGroups[groupName]; if(!taskGroup) ... *)
  match getOwn groupName (_taskGroups this) with
  | Some a => ret (Group a, this)
  | None =>
      if (groupName =? "__proto__") || mem groupName Object_prototype_methods
      then ret (Inherited groupName, this)
      else
        f <- require fs (_getModuleName this groupName) ;;
        a <- tasksModuleFn_call f (VBool true) (Some (config this)) [] ;;
        ret (Group a,
             {| config := config this;
                modulesDir := modulesDir this;
                _taskGroups := putOwn groupName a (_taskGroups this) |})
  end.

(** [GroupLoader.prototype.loadedTaskGroups] *)
Definition loadedTaskGroups (this : t) : list string := ownKeys (_taskGroups this).

(** A modules directory for examples: it holds [less-tasks.js] and
    [toString-tasks.js], both made by part_005's [createTasksModule]. *)
Definition example_modules : modules :=
  fun path =>
    if (path =? "tasks/less-tasks") then
      Some (createTasksModule part_005 (VString "less") (Some less_actions))
    else if (path =? "tasks/toString-tasks") then
      Some (createTasksModule part_005 (VString "toString") (Some less_actions))
    else None.

End GroupLoader.

(* ================================================================== *)
(** ** Build configuration: paths and globs (src/unnamed/part_000) *)

Module BuildConfigPaths.
Import Js.

(** Node's [path] module, as far as the code uses it: the separator
    character of the platform and [path.join] of two segments. *)
Record path_module := { sep : ascii; join : string -> string -> string }.

(** [this.paths] *)
Record paths_settings := {
  srcRoot : string;
  bldRootDev : string;
  bldRootProd : string
}.

(** The paths of [new BuildConfig()]. *)
Definition new : paths_settings :=
  {| srcRoot := "src"; bldRootDev := "dist"; bldRootProd := "dist" |}.

(** [dir.substr(-1)]: the last character, or the empty string. *)
Fixpoint substr_last (dir : string) : string :=
  match dir with
  | EmptyString => EmptyString
  | String c EmptyString => String c EmptyString
  | String _ rest => substr_last rest
  end.

(** [BuildConfig.addTrailingSlash] (lines 130-137) *)
Definition addTrailingSlash (path : path_module) (dir : string) : string :=
  if negb (substr_last dir =? String (sep path) EmptyString)
  then dir ++ String (sep path) EmptyString
  else dir.

(** [BuildConfig.prototype.srcPath] (lines 167-174); the suffix is a string
    or left out. *)
Definition srcPath (path : path_module) (this : paths_settings) (suffix : option string)
    : string :=
  match suffix with
  | Some s =>
      if truthy (VString s) then join path (srcRoot this) s
      else addTrailingSlash path (srcRoot this)
  | None => addTrailingSlash path (srcRoot this)
  end.

(** [BuildConfig.prototype.bldPath] (lines 311-318) *)
Definition bldPath (path : path_module) (this : paths_settings) (suffix : option string)
    : string :=
  match suffix with
  | Some s =>
      if truthy (VString s) then join path (bldRootDev this) s
      else addTrailingSlash path (bldRootDev this)
  | None => addTrailingSlash path (bldRootDev this)
  end.

(** An argument of [srcGlobs]: a glob string or an array of glob strings. *)
Inductive glob_argument :=
| GlobString (s : string)
| GlobArray (l : list string).

(** What [srcGlobs] returns: one string, or an array of them. *)
Inductive globs_result :=
| OneGlob (s : string)
| Globs (l : list string).

(** [if(globs.indexOf(x) === -1){ globs.push(x); }] *)
Definition push_unless_present (globs : list string) (x : string) : list string :=
  if existsb (String.eqb x) globs then globs else globs ++ [x].

(** The loop over [arguments] (lines 252-274); an empty array adds
    nothing, like the [continue] that skips it. *)
Fixpoint collect (arguments : list glob_argument) (globs : list string) : list string :=
  match arguments with
  | [] => globs
  | GlobArray l :: rest => collect rest (fold_left push_unless_present l globs)
  | GlobString s :: rest => collect rest (push_unless_present globs s)
  end.

(** [BuildConfig.prototype.srcGlobs] (lines 241-295) *)
Definition srcGlobs (path : path_module) (this : paths_settings)
    (arguments : list glob_argument) : globs_result :=
  match arguments with
  | [] => OneGlob (srcPath path this None)
  | _ :: _ =>
      match collect arguments [] with
      | [] => OneGlob (srcPath path this None)
      | globs =>
          match map (fun suffix => srcPath path this (Some suffix)) globs with
          | [g] => OneGlob g
          | globs => Globs globs
          end
      end
  end.

(** The glob strings of the arguments, in the order the loop visits them. *)
Definition given (arguments : list glob_argument) : list string :=
  flat_map (fun a => match a with GlobString s => [s] | GlobArray l => l end) arguments.

(** A list without its repetitions, every string at its first place. *)
Fixpoint first_occurrences (l : list string) : list string :=
  match l with
  | [] => []
  | x :: rest => x :: filter (fun y => negb (y =? x)) (first_occurrences rest)
  end.

End BuildConfigPaths.

(* ================================================================== *)
(** ** Build configuration, older revision (src/unnamed/part_004) *)

Module BuildConfigPart004.
Import Js.

(** The first argument of the older [createTaskName]: an object with
    [group], [action] and [prefix] members (a member left out reads
    [undefined]), or the group name. *)
Inductive componentsOrGroupName :=
| Components (group action prefix : value)
| GroupName (v : value).

(** [BuildConfig.prototype.createTaskName] (part_004, lines 237-263).
    [typeof null] is ['object'], and reading a member of [null] throws. *)
Definition createTaskName (this : BuildConfig.t) (c : componentsOrGroupName)
    (actionName prefixName : value) : string + error :=
  let read :=
    match c with
    | Components g a p =>
        inl (g, a, Js.or p (BuildConfig.defaultPrefixName (BuildConfig.tasks this)))
    | GroupName VNull => inr TypeError
    | GroupName v =>
        inl (v, actionName,
             Js.or prefixName (BuildConfig.defaultPrefixName (BuildConfig.tasks this)))
    end in
  match read with
  | inr e => inr e
  | inl (group, action, prefix) =>
      let taskName :=
        if BuildConfig.groupBeforeAction (BuildConfig.tasks this)
        then str_plus (plus_str group BuildConfig.TASK_NAME_SEPARATOR) action
        else str_plus (plus_str action BuildConfig.TASK_NAME_SEPARATOR) group in
      let taskName :=
        if truthy prefix
        then (plus_str prefix BuildConfig.TASK_NAME_SEPARATOR ++ taskName)%string
        else taskName in
      inl taskName
  end.

End BuildConfigPart004.

(* ================================================================== *)
(** ** Group loader: discovery (src/unnamed/part_001) *)

Module GroupLoaderScan.
Import Js PlainObject TaskGroup.

(** [\w]: an ASCII letter, digit or underscore. *)
Definition word_char (c : ascii) : bool :=
  let n := N_of_ascii c in
  ((48 <=? n) && (n <=? 57) || (65 <=? n) && (n <=? 90) ||
   (97 <=? n) && (n <=? 122) || (n =? 95))%N.

(** The longest prefix of word characters, and what follows it. *)
Fixpoint span_word (s : string) : string * string :=
  match s with
  | EmptyString => (EmptyString, EmptyString)
  | String c rest =>
      if word_char c
      then let (w, r) := span_word rest in (String c w, r)
      else (EmptyString, s)
  end.

(** [file.match(/^(\w+)\-tasks\.js$/)], giving capture group 1.  The
    character after [\w+] must be [-], which is no word character, so only
    the longest run of word characters can match. *)
Definition TASK_MODULE_REGEX_match (file : string) : option string :=
  let (w, rest) := span_word file in
  if negb (w =? "") && (rest =? "-tasks.js") then Some w else None.

(** [GroupLoader.prototype.availableTaskGroups] (lines 141-152), given the
    names [fs.readdirSync(this.modulesDir)] returned. *)
Fixpoint availableTaskGroups_loop (dirs : list string) (groupNames : list string)
    : list string :=
  match dirs with
  | [] => groupNames
  | file :: rest =>
      match TASK_MODULE_REGEX_match file with
      | Some name => availableTaskGroups_loop rest (groupNames ++ [name])
      | None => availableTaskGroups_loop rest groupNames
      end
  end.

Definition availableTaskGroups (dirs : list string) : list string :=
  availableTaskGroups_loop dirs [].

(** [GroupLoader.prototype.getAllAvailableTaskGroups] (lines 168-175); the
    loader is threaded through the calls of [getTaskGroup]. *)
Fixpoint getAllAvailableTaskGroups_loop (fs : GroupLoader.modules) (this : GroupLoader.t)
    (availableGroups : list string) (taskGroups : list GroupLoader.result)
    : M (list GroupLoader.result * GroupLoader.t) :=
  match availableGroups with
  | [] => ret (taskGroups, this)
  | groupName :: rest =>
      r <- GroupLoader.getTaskGroup fs this groupName ;;
      getAllAvailableTaskGroups_loop fs (snd r) rest (taskGroups ++ [fst r])
  end.

Definition getAllAvailableTaskGroups (fs : GroupLoader.modules) (this : GroupLoader.t)
    (dirs : list string) : M (list GroupLoader.result * GroupLoader.t) :=
  getAllAvailableTaskGroups_loop fs this (availableTaskGroups dirs) [].

(** A string made of word characters only. *)
Fixpoint all_word (s : string) : bool :=
  match s with
  | EmptyString => true
  | String c rest => word_char c && all_word rest
  end.

End GroupLoaderScan.

(* ================================================================== *)
(** ** The facade (src/lib/index.js) *)

Module KitchenSink.
Import Js PlainObject TaskGroup.

(** [function KitchenSink(gulp)]: the shared config and a group loader
    over the package's own modules directory. *)
Record t := {
  config : cfg_ref;
  _groupLoader : GroupLoader.t
}.

Definition new (TASK_MODULES_DIR : string) : t :=
  {| config := shared_config;
     _groupLoader := GroupLoader.new TASK_MODULES_DIR shared_config VUndefined |}.

(** [addTask] and [addTasks] call [loadTask] and [loadAllTasks] on the
    group object [getTaskGroup] hands out, so the methods that run are those
    of the [GulpTaskGroup] that made the group.  The loader caches a group
    only when a tasks module function has returned it, and the function made
    by the [createTasksModule] of src/types/task-group.js throws on every
    call ([Types.tasksModuleFn_call]): a group the loader hands out was made
    by part_005's [GulpTaskGroup] and has its methods.  With a modules
    directory made by src/types/task-group.js, [getTaskGroup] throws and
    [addTask] with it. *)

(** [KitchenSink.prototype.addTask] (lines 82-84):
    [return this._groupLoader.getTaskGroup(groupName).loadTask(actionName, gulp);]
    A member [_taskGroups] inherits has no [loadTask] to call. *)
Definition addTask (fs : GroupLoader.modules) (this : t)
    (groupName actionName : string) : M (returned * t) :=
  g <- GroupLoader.getTaskGroup fs (_groupLoader this) groupName ;;
  match fst g with
  | GroupLoader.Group a =>
      name <- Part005.loadTask a actionName ;;
      ret (name, {| config := config this; _groupLoader := snd g |})
  | GroupLoader.Inherited _ => throw TypeError
  end.

(** [KitchenSink.prototype.addTasks] (lines 99-101) *)
Definition addTasks (fs : GroupLoader.modules) (this : t)
    (groupName : string) : M (option (list returned) * t) :=
  g <- GroupLoader.getTaskGroup fs (_groupLoader this) groupName ;;
  match fst g with
  | GroupLoader.Group a =>
      names <- Part005.loadAllTasks a ;;
      ret (names, {| config := config this; _groupLoader := snd g |})
  | GroupLoader.Inherited _ => throw TypeError
  end.

End KitchenSink.

(* ================================================================== *)
(** ** LESS hint callbacks (src/lib/lazypipes/less-pipes.js) *)

Module LessPipes.

(** [file.lesshint]: the count the hinter reports and the severity of each
    of its results. *)
Record lesshint := { resultCount : Z; results : list string }.

(** The loop of [createHintSeverityCheckFn]: it stops at the first result
    of the severity. *)
Fixpoint found_in (results : list string) (severity : string) : bool :=
  match results with
  | [] => false
  | r :: rest => if (r =? severity) then true else found_in rest severity
  end.

(** The function made by [createHintSeverityCheckFn(severity)] (lines
    36-50). *)
Definition createHintSeverityCheckFn (severity : string) (file : lesshint) : bool :=
  if (0 <? resultCount file)%Z then found_in (results file) severity else false.

(** The function made by [createFilterCallbackFn(conditionFn, callbackFn)]
    (lines 22-29): its result, and the files the callback was called with. *)
Definition createFilterCallbackFn (conditionFn : lesshint -> bool) (file : lesshint)
    : bool * list lesshint :=
  if conditionFn file then (true, [file]) else (true, []).

(** [createHintSeverityCallbackFn] (lines 56-61) *)
Definition createHintSeverityCallbackFn (severity : string) (file : lesshint)
    : bool * list lesshint :=
  createFilterCallbackFn (createHintSeverityCheckFn severity) file.

End LessPipes.

(* ================================================================== *)
(** ** Vocabulary of the further properties *)

Module Vocabulary.
Import Js PlainObject TaskGroup TaskGroup.GulpTaskGroup.

(** A name that does not contain the separator [:]. *)
Fixpoint no_separator (s : string) : bool :=
  match s with
  | EmptyString => true
  | String c rest => negb (Ascii.eqb c ":"%char) && no_separator rest
  end.

(** A dependency entry as an action dependency: a bare action name stands
    for [this.getActionDep(name)]. *)
Definition own_dependency (this : addr) (w : world) (dep : stringOrActionDep)
    : ActionDependency.t :=
  match dep with
  | DepString s => getActionDep this s w
  | DepAction d => d
  end.

(** The store after [config.tasks = settings] on the config object [c],
    as a gulpfile does to configure its build. *)
Definition assign_tasks (c : cfg_ref) (settings : BuildConfig.tasks_settings) (w : world)
    : world :=
  {| configs := fun x => if Nat.eqb x c then {| BuildConfig.tasks := settings |}
                         else configs w x;
     groups := groups w;
     next_group := next_group w;
     gulp := gulp w;
     required := required w |}.

(** A callback that makes no call to the host. *)
Definition leaves_host_alone (f : addr -> M unit) : Prop :=
  forall a w, gulp (world_of (f a w)) = gulp w.

End Vocabulary.

(* ================================================================== *)
(** * Properties *)

Import Js PlainObject TaskGroup TaskGroup.GulpTaskGroup.
Open Scope list_scope.

(** ** Values *)

Lemma strict_eq_true_iff (a b : value) : strict_eq a b = true <-> a = b.
Proof.
  destruct a as [| |x|x], b as [| |y|y]; simpl;
    try (split; [discriminate | intro H; inversion H]);
    try (split; reflexivity).
  - rewrite Bool.eqb_true_iff. split; [intros ->; reflexivity | intro H; now inversion H].
  - rewrite String.eqb_eq. split; [intros ->; reflexivity | intro H; now inversion H].
Qed.

Lemma strict_neq_true_iff (a b : value) : strict_neq a b = true <-> a <> b.
Proof.
  unfold strict_neq. rewrite negb_true_iff.
  destruct (strict_eq a b) eqn:E.
  - apply strict_eq_true_iff in E. split; [discriminate | intro H; contradiction].
  - split; [intros _ H | reflexivity].
    apply strict_eq_true_iff in H. congruence.
Qed.

Lemma strict_neq_false_iff (a b : value) : strict_neq a b = false <-> a = b.
Proof.
  unfold strict_neq. rewrite negb_false_iff. apply strict_eq_true_iff.
Qed.

(** ** Naming policy *)

Lemma append_assoc (a b c : string) : ((a ++ b) ++ c = a ++ (b ++ c))%string.
Proof.
  induction a as [| ch a IH]; simpl; [reflexivity | now rewrite IH].
Qed.

(** C1.  [BuildConfig.createTaskName]: with the effective prefix the
    explicit prefix if truthy and [tasks.defaultPrefixName] otherwise, and
    the core pair [groupName + ':' + actionName] when
    [tasks.groupBeforeAction] is true and [actionName + ':' + groupName]
    otherwise, the result is [effectivePrefix + ':' + corePair] when the
    effective prefix is truthy and the core pair otherwise.  ([+] on a
    string and a value concatenates the value's string conversion.) *)
Theorem createTaskName_policy (cfg : BuildConfig.t) (groupName actionName prefixName : value) :
  let effectivePrefix :=
    if truthy prefixName then prefixName
    else BuildConfig.defaultPrefixName (BuildConfig.tasks cfg) in
  let corePair :=
    if BuildConfig.groupBeforeAction (BuildConfig.tasks cfg)
    then (ToString groupName ++ ":" ++ ToString actionName)%string
    else (ToString actionName ++ ":" ++ ToString groupName)%string in
  BuildConfig.createTaskName cfg groupName actionName prefixName =
    if truthy effectivePrefix
    then (ToString effectivePrefix ++ ":" ++ corePair)%string
    else corePair.
Proof.
  intros effectivePrefix corePair. subst effectivePrefix corePair.
  unfold BuildConfig.createTaskName, Js.or, plus_str, str_plus,
    BuildConfig.TASK_NAME_SEPARATOR.
  destruct (BuildConfig.groupBeforeAction (BuildConfig.tasks cfg));
    destruct (truthy prefixName);
    destruct (truthy (BuildConfig.defaultPrefixName (BuildConfig.tasks cfg)));
    rewrite ?append_assoc; reflexivity.
Qed.

(** ** Action dependencies *)

Lemma isExternalTo_truthy (d : ActionDependency.t) (g : addr) (w : world) :
  truthy (ActionDependency_isExternalTo d g w) =
    truthy (ActionDependency.groupName d) &&
    strict_neq (ActionDependency.groupName d) (groupName (groups w g)).
Proof.
  unfold ActionDependency_isExternalTo, Js.and.
  destruct (truthy (ActionDependency.groupName d)) eqn:E; simpl; [reflexivity | exact E].
Qed.

(** C2.  An action dependency [d] resolved against the context group [g]:
    when [d.groupName] is truthy and differs from [g.groupName] the result is
    [g.config.createTaskName(d.groupName, d.actionName)]; otherwise (falsy
    group name, or the same group) it is [g.createTaskName(d.actionName)],
    the name built from the context group's own name. *)
Theorem ActionDependency_createTaskName_resolves
    (d : ActionDependency.t) (g : addr) (w : world) :
  (truthy (ActionDependency.groupName d) = true ->
   ActionDependency.groupName d <> groupName (groups w g) ->
   ActionDependency_createTaskName d g w =
     BuildConfig.createTaskName (configs w (config (groups w g)))
       (ActionDependency.groupName d) (VString (ActionDependency.actionName d)) VUndefined)
  /\
  (truthy (ActionDependency.groupName d) = false \/
   ActionDependency.groupName d = groupName (groups w g) ->
   ActionDependency_createTaskName d g w =
     createTaskName g (ActionDependency.actionName d) w /\
   ActionDependency_createTaskName d g w =
     BuildConfig.createTaskName (configs w (config (groups w g)))
       (groupName (groups w g)) (VString (ActionDependency.actionName d)) VUndefined).
Proof.
  unfold ActionDependency_createTaskName. rewrite isExternalTo_truthy. split.
  - intros Ht Hne. apply strict_neq_true_iff in Hne. rewrite Ht, Hne. reflexivity.
  - intros [Hf | He].
    + rewrite Hf. simpl. split; reflexivity.
    + apply strict_neq_false_iff in He. rewrite He, andb_false_r. split; reflexivity.
Qed.

(** The spec's scenario: group ["less"], a dependency on ["fonts"]'s
    ["copy"] and one on the group's own ["clean"]. *)
Lemma ActionDependency_createTaskName_resolves_witness :
  let w := world_of (new (VString "less") shared_config initial) in
  ActionDependency_createTaskName
    {| ActionDependency.groupName := VString "fonts";
       ActionDependency.actionName := "copy" |} 0 w = "fonts:copy"
  /\
  ActionDependency_createTaskName
    {| ActionDependency.groupName := VUndefined;
       ActionDependency.actionName := "clean" |} 0 w = "less:clean".
Proof.
  split.
  - rewrite (proj1 (ActionDependency_createTaskName_resolves
      {| ActionDependency.groupName := VString "fonts";
         ActionDependency.actionName := "copy" |} 0
      (world_of (new (VString "less") shared_config initial)))).
    + reflexivity.
    + reflexivity.
    + discriminate.
  - destruct (proj2 (ActionDependency_createTaskName_resolves
      {| ActionDependency.groupName := VUndefined;
         ActionDependency.actionName := "clean" |} 0
      (world_of (new (VString "less") shared_config initial)))
      (or_introl eq_refl)) as [_ ->].
    reflexivity.
Defined.

(** ** Own properties of plain objects *)

Lemma getOwn_putOwn_same {A} (k : string) (v : A) (l : list (string * A)) :
  getOwn k (putOwn k v l) = Some v.
Proof.
  induction l as [| [k' v'] l IH]; simpl.
  - now rewrite String.eqb_refl.
  - destruct (k =? k') eqn:E; simpl; rewrite ?E, ?String.eqb_refl; auto.
Qed.

Lemma getOwn_putOwn_other {A} (k k' : string) (v : A) (l : list (string * A)) :
  k' <> k -> getOwn k' (putOwn k v l) = getOwn k' l.
Proof.
  intro Hne. induction l as [| [k0 v0] l IH]; simpl.
  - apply String.eqb_neq in Hne. now rewrite Hne.
  - destruct (k =? k0) eqn:E; simpl.
    + apply String.eqb_eq in E. subst k0.
      apply String.eqb_neq in Hne. now rewrite Hne.
    + now rewrite IH.
Qed.

Lemma getOwn_None_iff {A} (k : string) (l : list (string * A)) :
  getOwn k l = None <-> ~ In k (map fst l).
Proof.
  induction l as [| [k' v'] l IH]; simpl.
  - tauto.
  - destruct (k =? k') eqn:E.
    + apply String.eqb_eq in E. subst. split; [discriminate | intro H; exfalso; auto].
    + apply String.eqb_neq in E. rewrite IH. split.
      * intros H [H1 | H1]; [congruence | auto].
      * intros H H1. auto.
Qed.

Lemma getOwn_Some_In {A} (k : string) (v : A) (l : list (string * A)) :
  getOwn k l = Some v -> In (k, v) l.
Proof.
  induction l as [| [k' v'] l IH]; simpl; [discriminate |].
  destruct (k =? k') eqn:E.
  - apply String.eqb_eq in E. subst. intros [= ->]. now left.
  - intro H. right. auto.
Qed.

Lemma In_keys_getOwn {A} (k : string) (l : list (string * A)) :
  In k (map fst l) -> exists v, getOwn k l = Some v.
Proof.
  intro H. destruct (getOwn k l) eqn:E; [eauto |].
  apply getOwn_None_iff in E. contradiction.
Qed.

Lemma keys_putOwn_present {A} (k : string) (v : A) (l : list (string * A)) :
  In k (map fst l) -> map fst (putOwn k v l) = map fst l.
Proof.
  induction l as [| [k' v'] l IH]; simpl; [tauto |].
  destruct (k =? k') eqn:E; simpl.
  - apply String.eqb_eq in E. now subst.
  - apply String.eqb_neq in E. intros [H | H]; [congruence | now rewrite IH].
Qed.

Lemma keys_putOwn_absent {A} (k : string) (v : A) (l : list (string * A)) :
  ~ In k (map fst l) -> map fst (putOwn k v l) = map fst l ++ [k].
Proof.
  induction l as [| [k' v'] l IH]; simpl; [reflexivity |].
  intro H. destruct (k =? k') eqn:E; simpl.
  - apply String.eqb_eq in E. subst. exfalso. auto.
  - rewrite IH; auto.
Qed.

Lemma NoDup_putOwn {A} (k : string) (v : A) (l : list (string * A)) :
  NoDup (map fst l) -> NoDup (map fst (putOwn k v l)).
Proof.
  intro H. destruct (in_dec string_dec k (map fst l)) as [Hin | Hout].
  - now rewrite keys_putOwn_present.
  - rewrite keys_putOwn_absent by assumption.
    apply NoDup_rev in H. rewrite <- (rev_involutive (map fst l ++ [k])).
    apply NoDup_rev. rewrite rev_app_distr. simpl. constructor; [| assumption].
    now rewrite <- in_rev.
Qed.

Lemma In_putOwn {A} (k : string) (v : A) (l : list (string * A)) (kv : string * A) :
  In kv (putOwn k v l) -> kv = (k, v) \/ In kv l.
Proof.
  induction l as [| [k' v'] l IH]; simpl.
  - intros [H | []]. now left.
  - destruct (k =? k'); simpl; intros [H | H]; auto.
    destruct (IH H); auto.
Qed.

(** *** Enumeration order *)

Lemma insert_index_perm (x : N * string) (l : list (N * string)) :
  Permutation (insert_index x l) (x :: l).
Proof.
  induction l as [| y l IH]; simpl; [reflexivity |].
  destruct (fst x <=? fst y)%N; [reflexivity |].
  rewrite IH. apply perm_swap.
Qed.

Lemma sort_index_perm (l : list (N * string)) : Permutation (sort_index l) l.
Proof.
  induction l as [| x l IH]; simpl; [reflexivity |].
  rewrite insert_index_perm. now apply perm_skip.
Qed.

Lemma order_perm (ks : list string) :
  Permutation (map snd (sort_index (index_keys ks)) ++ named_keys ks) ks.
Proof.
  rewrite sort_index_perm.
  induction ks as [| k ks IH]; simpl; [reflexivity |].
  unfold named_keys in *. simpl.
  destruct (array_index k); simpl.
  - now apply perm_skip.
  - rewrite <- Permutation_middle. now apply perm_skip.
Qed.

Lemma ownKeys_perm {A} (l : list (string * A)) : Permutation (ownKeys l) (map fst l).
Proof. apply order_perm. Qed.

Lemma ownKeys_length {A} (l : list (string * A)) : length (ownKeys l) = length l.
Proof.
  rewrite (Permutation_length (ownKeys_perm l)). apply length_map.
Qed.

Lemma ownKeys_In {A} (k : string) (l : list (string * A)) :
  In k (ownKeys l) <-> In k (map fst l).
Proof.
  split; apply Permutation_in; [| symmetry]; apply ownKeys_perm.
Qed.

Lemma ownKeys_NoDup {A} (l : list (string * A)) :
  NoDup (map fst l) -> NoDup (ownKeys l).
Proof.
  intro H. eapply Permutation_NoDup; [symmetry; apply ownKeys_perm | assumption].
Qed.

(** ** Task groups: the shape of [_taskLoaders] *)

Lemma new_makes_group (gn : value) (cfg : cfg_ref) (w : world) :
  exists w', new gn cfg w = Normal (next_group w) w' /\
    groupName (groups w' (next_group w)) = gn /\
    config (groups w' (next_group w)) = cfg /\
    _taskLoaders (groups w' (next_group w)) = {| own := []; proto := ObjectPrototype |} /\
    wf_group w' (next_group w) /\
    gulp w' = gulp w /\ required w' = required w /\ configs w' = configs w /\
    next_group w' = S (next_group w).
Proof.
  unfold new, alloc_group. eexists. split; [reflexivity |].
  unfold wf_group. simpl. rewrite Nat.eqb_refl. simpl.
  repeat split; auto using NoDup_nil.
Qed.

Lemma set_group_same (w : world) (a : addr) (g : GulpTaskGroup.t) :
  groups (set_group w a g) a = g.
Proof. simpl. now rewrite Nat.eqb_refl. Qed.

Lemma set_group_other (w : world) (a b : addr) (g : GulpTaskGroup.t) :
  b <> a -> groups (set_group w a g) b = groups w b.
Proof. intro H. simpl. apply Nat.eqb_neq in H. now rewrite H. Qed.

Lemma set_wf (o o' : taskLoaders) (a : addr) (k : string) (deps : list stringOrActionDep)
    (f : gulpTaskFn) :
  set o k (_createTaskLoaderFn a k deps f) = Some o' ->
  NoDup (map fst (own o)) ->
  Forall (fun kf => bound_this (snd kf) = a /\ actionName (snd kf) = fst kf) (own o) ->
  NoDup (map fst (own o')) /\
  Forall (fun kf => bound_this (snd kf) = a /\ actionName (snd kf) = fst kf) (own o').
Proof.
  intros Hset Hnd Hall.
  assert (Hput : NoDup (map fst (putOwn k (_createTaskLoaderFn a k deps f) (own o))) /\
                 Forall (fun kf => bound_this (snd kf) = a /\ actionName (snd kf) = fst kf)
                        (putOwn k (_createTaskLoaderFn a k deps f) (own o))).
  { split; [now apply NoDup_putOwn |].
    rewrite Forall_forall in *. intros kv Hin.
    destruct (In_putOwn _ _ _ _ Hin) as [-> | Hin']; [simpl; auto | auto]. }
  unfold set in Hset.
  destruct (hasOwn k (own o)).
  { injection Hset as <-. exact Hput. }
  destruct (k =? "__proto__")%string.
  { injection Hset as <-. simpl. auto. }
  destruct (proto o).
  - injection Hset as <-. exact Hput.
  - destruct (mem k Function_chain_unassignable); [discriminate |].
    injection Hset as <-. exact Hput.
Qed.

Lemma addAction_wf (a : addr) (args : addAction_arguments) (w w' : world) :
  addAction a args w = Normal tt w' -> wf_group w a -> wf_group w' a.
Proof.
  unfold addAction, wf_group.
  destruct (addAction_parameters args) as [[k deps] f].
  destruct (set _ k _) as [o' |] eqn:Hset; [| discriminate].
  intros [= <-] [Hnd Hall]. rewrite set_group_same. simpl.
  eapply set_wf; eauto.
Qed.

Lemma addAction_keeps_name_and_config (a : addr) (args : addAction_arguments) (w w' : world) :
  addAction a args w = Normal tt w' ->
  groupName (groups w' a) = groupName (groups w a) /\
  config (groups w' a) = config (groups w a) /\
  gulp w' = gulp w /\ configs w' = configs w.
Proof.
  unfold addAction.
  destruct (addAction_parameters args) as [[k deps] f].
  destruct (set _ k _) as [o' |]; [| discriminate].
  intros [= <-]. rewrite set_group_same. simpl. auto.
Qed.

(** ** Materialization: what it leaves alone *)

Lemma gulp_tasks_nil (w : world) : gulp_tasks [] w = w.
Proof. destruct w. unfold gulp_tasks. simpl. now rewrite app_nil_r. Qed.

Lemma gulp_tasks_app (ts1 ts2 : list task) (w : world) :
  gulp_tasks ts2 (gulp_tasks ts1 w) = gulp_tasks (ts1 ++ ts2) w.
Proof. unfold gulp_tasks. simpl. now rewrite app_assoc. Qed.

Lemma gulp_task_is_gulp_tasks (t : task) (w : world) : gulp_task t w = gulp_tasks [t] w.
Proof. reflexivity. Qed.

Lemma only_registers_gulp_tasks (g : addr) (ts : list task) (w : world) :
  only_registers g w (gulp_tasks ts w).
Proof.
  unfold only_registers, same_objects. simpl. repeat split; eauto.
Qed.

Lemma Types_taskLoaderFn_call_world (f : taskLoaderFn) (h : hostArg) (w : world) :
  exists ts, world_of (Types.taskLoaderFn_call f h w) = gulp_tasks ts w.
Proof.
  unfold Types.taskLoaderFn_call.
  destruct (actionDeps f), h; simpl;
    first [ eexists; apply gulp_task_is_gulp_tasks
          | exists []; now rewrite gulp_tasks_nil ].
Qed.

Lemma Part005_taskLoaderFn_call_world (f : taskLoaderFn) (h : hostArg) (w : world) :
  exists ts, world_of (Part005.taskLoaderFn_call f h w) = gulp_tasks ts w.
Proof.
  unfold Part005.taskLoaderFn_call.
  destruct (actionDeps f), h; simpl;
    first [ eexists; apply gulp_task_is_gulp_tasks
          | exists []; now rewrite gulp_tasks_nil ].
Qed.

Lemma Types_loadTask_world (a : addr) (k : string) (w : world) :
  exists ts, world_of (Types.loadTask a k w) = gulp_tasks ts w.
Proof.
  unfold Types.loadTask.
  destruct (get (_taskLoaders (groups w a)) k) as [f | m | m | |].
  - destruct (Types_taskLoaderFn_call_world f GulpInstance w) as [ts Hts].
    exists ts. destruct (Types.taskLoaderFn_call f GulpInstance w); exact Hts.
  - exists []. rewrite gulp_tasks_nil. now destruct (call_ObjectMethod m _).
  - exists []. now rewrite gulp_tasks_nil.
  - exists []. now rewrite gulp_tasks_nil.
  - exists []. now rewrite gulp_tasks_nil.
Qed.

Lemma Part005_loadTask_world (a : addr) (k : string) (w : world) :
  exists ts, world_of (Part005.loadTask a k w) = gulp_tasks ts w.
Proof.
  unfold Part005.loadTask.
  destruct (get (_taskLoaders (groups w a)) k) as [f | m | m | |].
  - apply Part005_taskLoaderFn_call_world.
  - exists []. rewrite gulp_tasks_nil. now destruct (call_ObjectMethod m _).
  - exists []. now rewrite gulp_tasks_nil.
  - exists []. now rewrite gulp_tasks_nil.
  - exists []. now rewrite gulp_tasks_nil.
Qed.

Lemma Types_loadAllTasks_loop_world (a : addr) (ks : list string) (w : world) :
  exists ts, world_of (Types.loadAllTasks_loop a ks w) = gulp_tasks ts w.
Proof.
  revert w. induction ks as [| k ks IH]; intro w; simpl.
  - exists []. now rewrite gulp_tasks_nil.
  - unfold bind. destruct (Types_loadTask_world a k w) as [ts1 H1].
    destruct (Types.loadTask a k w) as [r w1 | e w1]; simpl in H1; subst w1.
    + destruct (IH (gulp_tasks ts1 w)) as [ts2 H2].
      exists (ts1 ++ ts2). now rewrite H2, gulp_tasks_app.
    + now exists ts1.
Qed.

Lemma Part005_loadAllTasks_loop_world (a : addr) (ks : list string) (acc : list returned)
    (w : world) :
  exists ts, world_of (Part005.loadAllTasks_loop a ks acc w) = gulp_tasks ts w.
Proof.
  revert acc w. induction ks as [| k ks IH]; intros acc w; simpl.
  - exists []. now rewrite gulp_tasks_nil.
  - unfold bind. destruct (Part005_loadTask_world a k w) as [ts1 H1].
    destruct (Part005.loadTask a k w) as [r w1 | e w1]; simpl in H1; subst w1.
    + destruct (IH (acc ++ [r]) (gulp_tasks ts1 w)) as [ts2 H2].
      exists (ts1 ++ ts2). now rewrite H2, gulp_tasks_app.
    + now exists ts1.
Qed.

Lemma Types_loadAllTasks_world (a : addr) (w : world) :
  exists ts, world_of (Types.loadAllTasks a w) = gulp_tasks ts w.
Proof.
  unfold Types.loadAllTasks, bind.
  destruct (Types_loadAllTasks_loop_world a (keys (_taskLoaders (groups w a))) w) as [ts H].
  exists ts. now destruct (Types.loadAllTasks_loop a _ w).
Qed.

Lemma Part005_loadAllTasks_world (a : addr) (w : world) :
  exists ts, world_of (Part005.loadAllTasks a w) = gulp_tasks ts w.
Proof.
  unfold Part005.loadAllTasks, bind.
  destruct (Part005_loadAllTasks_loop_world a (keys (_taskLoaders (groups w a))) [] w)
    as [ts H].
  exists ts. now destruct (Part005.loadAllTasks_loop a _ [] w).
Qed.

(** C10.  Materialization never mutates the task group: after
    [loadTask(actionName, gulp)] or [loadAllTasks(gulp)], in either revision
    of the module, the group's [groupName], its [config] reference and its
    [_taskLoaders] are what they were before the call, as is every other
    object; the only effect is calls received by the host.  (This holds for
    every action name, registered or not, and whether the call returns or
    throws.) *)
Theorem materialization_only_registers (g : addr) (actionName : string) (w : world) :
  only_registers g w (world_of (Types.loadTask g actionName w)) /\
  only_registers g w (world_of (Part005.loadTask g actionName w)) /\
  only_registers g w (world_of (Types.loadAllTasks g w)) /\
  only_registers g w (world_of (Part005.loadAllTasks g w)).
Proof.
  destruct (Types_loadTask_world g actionName w) as [ts1 ->].
  destruct (Part005_loadTask_world g actionName w) as [ts2 ->].
  destruct (Types_loadAllTasks_world g w) as [ts3 ->].
  destruct (Part005_loadAllTasks_world g w) as [ts4 ->].
  split; [| split; [| split]]; apply only_registers_gulp_tasks.
Qed.

(** ** Materialization: registered actions *)

Lemma resolveDepNames_loop_gulp_tasks (a : addr) (deps : list stringOrActionDep)
    (acc : list string) (ts : list task) (w : world) :
  resolveDepNames_loop a deps acc (gulp_tasks ts w) = resolveDepNames_loop a deps acc w.
Proof.
  revert acc. induction deps as [| d deps IH]; intro acc; simpl; [reflexivity |].
  rewrite IH. destruct d; reflexivity.
Qed.

Lemma loader_task_gulp_tasks (f : taskLoaderFn) (ts : list task) (w : world) :
  loader_task f (gulp_tasks ts w) = loader_task f w.
Proof.
  unfold loader_task, resolveDepNames. rewrite resolveDepNames_loop_gulp_tasks.
  reflexivity.
Qed.

Lemma resolveDepNames_loop_map (a : addr) (deps : list stringOrActionDep)
    (acc : list string) (w : world) :
  resolveDepNames_loop a deps acc w =
    acc ++ map (fun dep => match dep with
                           | DepAction d => ActionDependency_createTaskName d a w
                           | DepString s => createTaskName a s w
                           end) deps.
Proof.
  revert acc. induction deps as [| d deps IH]; intro acc; simpl.
  - now rewrite app_nil_r.
  - rewrite IH, <- app_assoc. reflexivity.
Qed.

Lemma Part005_loadTask_own (a : addr) (k : string) (f : taskLoaderFn) (w : world) :
  getOwn k (own (_taskLoaders (groups w a))) = Some f ->
  Part005.loadTask a k w =
    Normal (RValue (VString (name (loader_task f w)))) (gulp_task (loader_task f w) w).
Proof.
  intro H. unfold Part005.loadTask, get. rewrite H.
  unfold Part005.taskLoaderFn_call, loader_task. destruct (actionDeps f); reflexivity.
Qed.

Lemma Types_loadTask_own (a : addr) (k : string) (f : taskLoaderFn) (w : world) :
  getOwn k (own (_taskLoaders (groups w a))) = Some f ->
  Types.loadTask a k w = Normal (RValue VUndefined) (gulp_task (loader_task f w) w).
Proof.
  intro H. unfold Types.loadTask, get. rewrite H.
  unfold Types.taskLoaderFn_call, loader_task. destruct (actionDeps f); reflexivity.
Qed.

Lemma wf_group_own (w : world) (a : addr) (k : string) (f : taskLoaderFn) :
  wf_group w a ->
  getOwn k (own (_taskLoaders (groups w a))) = Some f ->
  bound_this f = a /\ actionName f = k.
Proof.
  intros [_ Hall] H. apply getOwn_Some_In in H.
  rewrite Forall_forall in Hall. exact (Hall _ H).
Qed.

Lemma listActionNames_registered (w : world) (a : addr) (k : string) :
  In k (listActionNames a w) <->
  exists f, getOwn k (own (_taskLoaders (groups w a))) = Some f.
Proof.
  unfold listActionNames, keys. rewrite ownKeys_In. split.
  - apply In_keys_getOwn.
  - intros [f H]. destruct (in_dec string_dec k (map fst (own (_taskLoaders (groups w a)))))
      as [Hin | Hout]; [assumption |].
    apply getOwn_None_iff in Hout. congruence.
Qed.

(** X23.  In src/unnamed/part_005, loading a registered action of a group
    built through [new] and [addAction] registers it with the host under
    [createTaskName(actionName)] and returns that name; in
    src/types/task-group.js the same registration is made and nothing is
    returned. *)
Lemma loadTask_registered (g : addr) (actionName : string) (w : world) :
  wf_group w g ->
  In actionName (listActionNames g w) ->
  exists t,
    name t = createTaskName g actionName w /\
    Part005.loadTask g actionName w =
      Normal (RValue (VString (createTaskName g actionName w))) (gulp_task t w) /\
    Types.loadTask g actionName w = Normal (RValue VUndefined) (gulp_task t w).
Proof.
  intros Hwf Hin. apply listActionNames_registered in Hin. destruct Hin as [f Hf].
  destruct (wf_group_own _ _ _ _ Hwf Hf) as [Hthis Hname].
  exists (loader_task f w).
  assert (Hn : name (loader_task f w) = createTaskName g actionName w).
  { simpl. now rewrite Hthis, Hname. }
  split; [exact Hn |]. split.
  - rewrite (Part005_loadTask_own _ _ _ _ Hf), Hn. reflexivity.
  - apply Types_loadTask_own, Hf.
Qed.

Lemma Part005_loadAllTasks_loop_registered (a : addr) (w : world) (ks : list string) :
  wf_group w a ->
  Forall (fun k => In k (map fst (own (_taskLoaders (groups w a))))) ks ->
  forall (acc : list returned) (ts : list task),
    Part005.loadAllTasks_loop a ks acc (gulp_tasks ts w) =
      Normal (acc ++ map (fun k => RValue (VString (createTaskName a k w))) ks)
             (gulp_tasks (ts ++ map (fun f => loader_task f w)
                                    (loaders_of (_taskLoaders (groups w a)) ks)) w).
Proof.
  intros Hwf Hks. induction Hks as [| k ks Hk Hks IH]; intros acc ts; simpl.
  - now rewrite !app_nil_r.
  - destruct (In_keys_getOwn _ _ Hk) as [f Hf].
    destruct (wf_group_own _ _ _ _ Hwf Hf) as [Hthis Hname].
    unfold bind.
    rewrite (Part005_loadTask_own a k f (gulp_tasks ts w)) by exact Hf.
    rewrite loader_task_gulp_tasks, gulp_task_is_gulp_tasks, gulp_tasks_app, IH.
    rewrite Hf. simpl. rewrite Hthis, Hname, <- !app_assoc. reflexivity.
Qed.

(** In src/unnamed/part_005, [loadAllTasks] on a group built through [new]
    and [addAction] loads every registered action once, in enumeration
    order, and returns their task names in that order. *)
Lemma Part005_loadAllTasks_registered (g : addr) (w : world) :
  wf_group w g ->
  let o := _taskLoaders (groups w g) in
  Part005.loadAllTasks g w =
    Normal (Some (map (fun k => RValue (VString (createTaskName g k w)))
                      (listActionNames g w)))
           (gulp_tasks (map (fun f => loader_task f w) (loaders_of o (keys o))) w) /\
  length (listActionNames g w) = length (own o) /\
  map name (map (fun f => loader_task f w) (loaders_of o (keys o))) =
    map (fun k => createTaskName g k w) (listActionNames g w).
Proof.
  intros Hwf o. subst o.
  assert (Hks : Forall (fun k => In k (map fst (own (_taskLoaders (groups w g)))))
                       (keys (_taskLoaders (groups w g)))).
  { apply Forall_forall. intros k Hk. now apply ownKeys_In in Hk. }
  split; [| split].
  - unfold Part005.loadAllTasks, bind.
    pose proof (Part005_loadAllTasks_loop_registered g w _ Hwf Hks [] []) as H.
    rewrite gulp_tasks_nil in H. rewrite H. reflexivity.
  - apply ownKeys_length.
  - unfold listActionNames.
    induction Hks as [| k ks Hk Hks IH]; simpl; [reflexivity |].
    destruct (In_keys_getOwn _ _ Hk) as [f Hf].
    destruct (wf_group_own _ _ _ _ Hwf Hf) as [Hthis Hname].
    rewrite Hf. simpl. rewrite Hthis, Hname, <- IH. reflexivity.
Qed.

(** The [loadTask] of src/types/task-group.js has no [return], and neither
    has its loader closure: whatever the group and the action name, it
    throws or returns [undefined].  On the group ["less"] and its action
    ["build"], it registers ["less:build"] and returns [undefined] where
    part_005 returns ["less:build"]. *)
Theorem Types_loadTask_returns_undefined (g : addr) (actionName : string) (w : world) :
  let types := (tasks <- less_group ;; Types.loadTask tasks "build") initial in
  let part005 := (tasks <- less_group ;; Part005.loadTask tasks "build") initial in
  (value_of (Types.loadTask g actionName w) = None \/
   value_of (Types.loadTask g actionName w) = Some (RValue VUndefined)) /\
  value_of types = Some (RValue VUndefined) /\
  gulp (world_of types) = [ {| name := "less:build"; dep := None; fn := TaskFn 1 |} ] /\
  value_of part005 = Some (RValue (VString "less:build")) /\
  gulp (world_of part005) = [ {| name := "less:build"; dep := None; fn := TaskFn 1 |} ].
Proof.
  split; [| repeat split].
  unfold Types.loadTask.
  match goal with
  | |- context [match ?c with Normal _ _ => _ | Throw _ _ => _ end] => destruct c
  end; simpl; auto.
Qed.

(** The [loadAllTasks] of src/types/task-group.js collects nothing and has
    no [return]: whatever the group, it throws or returns [undefined]
    ([None]).  On the group ["less"] with the actions ["build"] and
    ["hint"], it registers ["less:build"] and ["less:hint"] and returns
    [undefined] where part_005 returns the two names. *)
Theorem Types_loadAllTasks_returns_undefined (g : addr) (w : world) :
  let types := (tasks <- less_group ;; Types.loadAllTasks tasks) initial in
  let part005 := (tasks <- less_group ;; Part005.loadAllTasks tasks) initial in
  (value_of (Types.loadAllTasks g w) = None \/
   value_of (Types.loadAllTasks g w) = Some None) /\
  value_of types = Some None /\
  map name (gulp (world_of types)) = [ "less:build"; "less:hint" ]%string /\
  value_of part005 =
    Some (Some [ RValue (VString "less:build"); RValue (VString "less:hint") ]) /\
  map name (gulp (world_of part005)) = [ "less:build"; "less:hint" ]%string.
Proof.
  split; [| repeat split].
  unfold Types.loadAllTasks, bind.
  destruct (Types.loadAllTasks_loop g _ w); simpl; auto.
Qed.

(** ** Tasks module functions *)

(** C3.  The claim: a tasks module function returns the new group, having
    loaded all its actions unless [lazyLoad] is true.  The function made by
    src/types/task-group.js tests [lazyload], which no scope declares: every
    call throws, whatever the flag, and no group is returned.  Called on the
    ["less"] module with [lazyLoad = true] the error is a ReferenceError. *)
Theorem Types_tasksModuleFn_never_returns
    (groupName : value) (addActionsFn : option (addr -> M unit))
    (lazyLoad : value) (config : option cfg_ref) (ignored : list value) (w : world) :
  value_of (Types.tasksModuleFn_call groupName addActionsFn lazyLoad config ignored w) = None
  /\
  thrown (tasksModuleFn_call
            (createTasksModule types_task_group (VString "less") (Some less_actions))
            (VBool true) None [] initial) = Some ReferenceError.
Proof.
  split; [| reflexivity].
  unfold Types.tasksModuleFn_call, bind, new, throw.
  destruct (alloc_group w _) as [a w1].
  destruct addActionsFn as [f |]; [destruct (f a w1) |]; reflexivity.
Qed.

(** In src/unnamed/part_005 the flag decides: with a truthy [lazyLoad] the
    call makes the group, runs the callback and returns the group, without
    [loadAllTasks]; otherwise [loadAllTasks] runs on the new group before it
    is returned. *)
Lemma Part005_tasksModuleFn_lazyLoad
    (groupName : value) (addActionsFn : option (addr -> M unit))
    (lazyLoad : value) (config : option cfg_ref) (ignored : list value) (w : world) :
  let cfg := match config with Some c => c | None => shared_config end in
  let define : M addr :=
    tasks <- new groupName cfg ;;
    (match addActionsFn with Some f => f tasks | None => ret tt end) ;;;
    ret tasks in
  Part005.tasksModuleFn_call groupName addActionsFn lazyLoad config ignored w =
    if truthy lazyLoad
    then define w
    else (tasks <- define ;; Part005.loadAllTasks tasks ;;; ret tasks) w.
Proof.
  intros cfg define. subst cfg define.
  unfold Part005.tasksModuleFn_call, bind, new, ret.
  destruct (alloc_group w _) as [a w1].
  destruct (truthy lazyLoad); simpl.
  - destruct addActionsFn as [f |]; [destruct (f a w1) |]; reflexivity.
  - destruct addActionsFn as [f |]; [destruct (f a w1) as [[] w2 | e w2] |];
      try reflexivity.
    + destruct (Part005.loadAllTasks a w2); reflexivity.
    + destruct (Part005.loadAllTasks a w1); reflexivity.
Qed.

(** The ["less"] module of part_005: called lazily it registers nothing,
    called with the flag omitted it registers both actions. *)
Lemma Part005_less_module_lazy_and_eager :
  let f := createTasksModule part_005 (VString "less") (Some less_actions) in
  let lazy := tasksModuleFn_call f (VBool true) None [] initial in
  let eager := tasksModuleFn_call f VUndefined None [] initial in
  value_of lazy = Some 0 /\ gulp (world_of lazy) = [] /\
  listActionNames 0 (world_of lazy) = [ "build"; "hint" ]%string /\
  value_of eager = Some 0 /\
  map name (gulp (world_of eager)) = [ "less:build"; "less:hint" ]%string.
Proof. repeat split. Qed.

(** C6.  The claim: a tasks module function takes
    [(gulp, groupName, config, lazyLoad)] and names the new group after the
    [groupName] it is called with, falling back to the factory's name.  Both
    revisions take [(gulp, lazyLoad, config)] and always use the factory's
    name: whatever a function made without callback is called with, the
    group it creates carries the factory's name.  And the call of the
    repository's own test,
    [createTasksModule('test-group-fallback', addActions)(gulp,
    'test-group-explicit', undefined, true)], which expects the group to be
    named ['test-group-explicit']. *)
Theorem tasksModuleFn_ignores_group_name_override
    (r : revision) (fallbackGroupName lazyLoad : value) (config : option cfg_ref)
    (ignored : list value) (w : world) :
  let call := fun r =>
    tasksModuleFn_call
      (createTasksModule r (VString "test-group-fallback") (Some test_addActions))
      (VString "test-group-explicit") None [ VBool true ] initial in
  groupName (groups (world_of (tasksModuleFn_call
                                 (createTasksModule r fallbackGroupName None)
                                 lazyLoad config ignored w))
                    (next_group w)) = fallbackGroupName /\
  value_of (call part_005) = Some 0 /\
  groupName (groups (world_of (call part_005)) 0) = VString "test-group-fallback" /\
  listActionNames 0 (world_of (call part_005)) = [ "test-action" ]%string /\
  thrown (call types_task_group) = Some ReferenceError /\
  groupName (groups (world_of (call types_task_group)) 0) = VString "test-group-fallback".
Proof.
  split; [| repeat split].
  destruct r; unfold tasksModuleFn_call; simpl.
  - unfold Types.tasksModuleFn_call, bind, new, alloc_group, ret, throw. simpl.
    now rewrite Nat.eqb_refl.
  - rewrite Part005_tasksModuleFn_lazyLoad. unfold bind, ret.
    destruct (new_makes_group fallbackGroupName
                (match config with Some c => c | None => shared_config end) w)
      as [w1 [Hnew [Hname _]]].
    rewrite Hnew. destruct (truthy lazyLoad); [exact Hname |].
    destruct (Part005_loadAllTasks_world (next_group w) w1) as [ts Hts].
    destruct (Part005.loadAllTasks (next_group w) w1) as [x w2 | e w2];
      simpl in Hts; subst w2; exact Hname.
Qed.

(** Whatever it is called with, the function made by part_005 creates its
    group under the factory's name; shown here for a factory without
    callback. *)
Lemma Part005_tasksModuleFn_group_name
    (groupName : value) (lazyLoad : value) (config : option cfg_ref)
    (ignored : list value) (w w' : world) (a : addr) :
  Part005.tasksModuleFn_call groupName None lazyLoad config ignored w = Normal a w' ->
  a = next_group w /\ TaskGroup.GulpTaskGroup.groupName (groups w' a) = groupName.
Proof.
  rewrite Part005_tasksModuleFn_lazyLoad. unfold bind, ret.
  destruct (new_makes_group groupName
              (match config with Some c => c | None => shared_config end) w)
    as [w1 [Hnew [Hname _]]].
  rewrite Hnew. destruct (truthy lazyLoad).
  - intros [= <- <-]. auto.
  - destruct (Part005_loadAllTasks_world (next_group w) w1) as [ts Hts].
    destruct (Part005.loadAllTasks (next_group w) w1) as [r w2 | e w2];
      [| discriminate].
    simpl in Hts. subst w2. intros [= <- <-]. auto.
Qed.

(** ** Action names that are not registered *)

Lemma get_not_found (o : taskLoaders) (k : string) :
  getOwn k (own o) = None -> inherited (proto o) k = false -> get o k = Undefined.
Proof.
  unfold get, inherited. intros -> H.
  apply orb_false_iff in H. destruct H as [H Hp].
  apply orb_false_iff in H. destruct H as [-> Ho].
  destruct (proto o); rewrite ?Hp, Ho; reflexivity.
Qed.

(** X24.  An action name that is neither registered nor found on the
    prototype chain of [_taskLoaders] makes [loadTask] throw a TypeError, in both
    revisions, before anything reaches the host. *)
Lemma loadTask_unknown_throws (g : addr) (actionName : string) (w : world) :
  getOwn actionName (own (_taskLoaders (groups w g))) = None ->
  inherited (proto (_taskLoaders (groups w g))) actionName = false ->
  Types.loadTask g actionName w = Throw TypeError w /\
  Part005.loadTask g actionName w = Throw TypeError w.
Proof.
  intros Hown Hinh. unfold Types.loadTask, Part005.loadTask.
  rewrite (get_not_found _ _ Hown Hinh). split; reflexivity.
Qed.

(** C7.  The claim: [loadTask] with an action name absent from the group's
    registry fails observably.  For a name [_taskLoaders] inherits from
    [Object.prototype] the lookup finds a function and the call succeeds.
    On any newly made group, which has no action at all,
    [loadTask("toString", gulp)] returns without a call to the host.  On
    the group ["less"], whose actions are ["build"] and ["hint"],
    [loadTask("toString", gulp)] returns ["[object Object]"] in part_005 and
    [undefined] in src/types/task-group.js, throws nothing and registers
    nothing. *)
Theorem loadTask_inherited_name_succeeds (groupName : value) (config : cfg_ref) (w : world) :
  let fresh_types :=
    (tasks <- new groupName config ;; Types.loadTask tasks "toString") w in
  let fresh_part005 :=
    (tasks <- new groupName config ;; Part005.loadTask tasks "toString") w in
  let names := value_of ((tasks <- less_group ;; fun w => Normal (listActionNames tasks w) w)
                           initial) in
  let types := (tasks <- less_group ;; Types.loadTask tasks "toString") initial in
  let part005 := (tasks <- less_group ;; Part005.loadTask tasks "toString") initial in
  value_of fresh_types = Some (RValue VUndefined) /\
  gulp (world_of fresh_types) = gulp w /\
  value_of fresh_part005 = Some (RValue (VString "[object Object]")) /\
  gulp (world_of fresh_part005) = gulp w /\
  names = Some [ "build"; "hint" ]%string /\
  value_of types = Some (RValue VUndefined) /\
  thrown types = None /\ gulp (world_of types) = [] /\
  value_of part005 = Some (RValue (VString "[object Object]")) /\
  thrown part005 = None /\ gulp (world_of part005) = [].
Proof.
  assert (Hfresh : forall w1, _taskLoaders (groups (snd (alloc_group w1
            {| GulpTaskGroup.groupName := groupName; GulpTaskGroup.config := config;
               _taskLoaders := {| own := []; proto := ObjectPrototype |} |}))
            (next_group w1)) = {| own := []; proto := ObjectPrototype |}).
  { intro w1. simpl. now rewrite Nat.eqb_refl. }
  split; [| split; [| split; [| split; [| repeat split]]]];
    unfold bind, new, Types.loadTask, Part005.loadTask;
    pose proof (Hfresh w) as H; simpl in H |- *; rewrite H; reflexivity.
Qed.

(** ** Adding an action twice *)

Lemma set_on_ObjectPrototype (o : taskLoaders) (k : string) (f : taskLoaderFn) :
  proto o = ObjectPrototype -> k <> "__proto__"%string ->
  set o k f = Some {| own := putOwn k f (own o); proto := ObjectPrototype |}.
Proof.
  intros Hp Hk. unfold set. rewrite Hp.
  apply String.eqb_neq in Hk. rewrite Hk.
  destruct (hasOwn k (own o)); reflexivity.
Qed.

(** X25.  On a group built through [new] and [addAction] whose
    [_taskLoaders] still has [Object.prototype] as prototype, adding an action twice under
    a name other than ["__proto__"] throws nothing, leaves the name listed
    exactly once, and stores the second dependency list and body, which is
    what part_005's [loadTask] then registers. *)
Lemma addAction_twice_replaces (g : addr) (args1 args2 : addAction_arguments) (w : world)
    (k : string) (deps1 deps2 : list stringOrActionDep) (f1 f2 : gulpTaskFn) :
  addAction_parameters args1 = (k, deps1, f1) ->
  addAction_parameters args2 = (k, deps2, f2) ->
  k <> "__proto__"%string ->
  proto (_taskLoaders (groups w g)) = ObjectPrototype ->
  wf_group w g ->
  exists w',
    (addAction g args1 ;;; addAction g args2) w = Normal tt w' /\
    count_occ string_dec (listActionNames g w') k = 1 /\
    getOwn k (own (_taskLoaders (groups w' g))) = Some (_createTaskLoaderFn g k deps2 f2) /\
    wf_group w' g /\
    gulp w' = gulp w /\
    Part005.loadTask g k w' =
      Normal (RValue (VString (createTaskName g k w')))
             (gulp_task {| name := createTaskName g k w';
                           dep := match deps2 with
                                  | [] => None
                                  | _ :: _ => Some (resolveDepNames g deps2 w')
                                  end;
                           fn := f2 |} w').
Proof.
  intros Ha1 Ha2 Hk Hp Hwf.
  destruct (addAction g args1 w) as [[] w1 | e w1] eqn:E1.
  2:{ unfold addAction in E1. rewrite Ha1 in E1.
      rewrite (set_on_ObjectPrototype _ _ _ Hp Hk) in E1. discriminate. }
  assert (Hwf1 : wf_group w1 g) by (eapply addAction_wf; eauto).
  assert (Hw1 : _taskLoaders (groups w1 g) =
                {| own := putOwn k (_createTaskLoaderFn g k deps1 f1)
                                 (own (_taskLoaders (groups w g)));
                   proto := ObjectPrototype |} /\ gulp w1 = gulp w).
  { unfold addAction in E1. rewrite Ha1 in E1.
    rewrite (set_on_ObjectPrototype _ _ _ Hp Hk) in E1.
    injection E1 as <-. rewrite set_group_same. simpl. auto. }
  destruct Hw1 as [Hreg1 Hgulp1].
  assert (Hp1 : proto (_taskLoaders (groups w1 g)) = ObjectPrototype)
    by (now rewrite Hreg1).
  destruct (addAction g args2 w1) as [[] w2 | e w2] eqn:E2.
  2:{ unfold addAction in E2. rewrite Ha2 in E2.
      rewrite (set_on_ObjectPrototype _ _ _ Hp1 Hk) in E2. discriminate. }
  assert (Hwf2 : wf_group w2 g) by (eapply addAction_wf; eauto).
  assert (Hw2 : _taskLoaders (groups w2 g) =
                {| own := putOwn k (_createTaskLoaderFn g k deps2 f2)
                                 (own (_taskLoaders (groups w1 g)));
                   proto := ObjectPrototype |} /\ gulp w2 = gulp w1).
  { unfold addAction in E2. rewrite Ha2 in E2.
    rewrite (set_on_ObjectPrototype _ _ _ Hp1 Hk) in E2.
    injection E2 as <-. rewrite set_group_same. simpl. auto. }
  destruct Hw2 as [Hreg2 Hgulp2].
  assert (Hget : getOwn k (own (_taskLoaders (groups w2 g))) =
                 Some (_createTaskLoaderFn g k deps2 f2)).
  { rewrite Hreg2. simpl. apply getOwn_putOwn_same. }
  exists w2. unfold bind. rewrite E1, E2.
  split; [reflexivity |]. split; [| split; [exact Hget | split; [exact Hwf2 | split]]].
  - apply NoDup_count_occ'.
    + apply ownKeys_NoDup, Hwf2.
    + apply listActionNames_registered. eauto.
  - congruence.
  - rewrite (Part005_loadTask_own _ _ _ _ Hget). reflexivity.
Qed.

Lemma addAction_proto_key (a : addr) (args : addAction_arguments) (w : world)
    (deps : list stringOrActionDep) (f : gulpTaskFn) :
  addAction_parameters args = ("__proto__"%string, deps, f) ->
  getOwn "__proto__" (own (_taskLoaders (groups w a))) = None ->
  exists w',
    addAction a args w = Normal tt w' /\
    _taskLoaders (groups w' a) =
      {| own := own (_taskLoaders (groups w a));
         proto := LoaderPrototype (_createTaskLoaderFn a "__proto__" deps f) |}.
Proof.
  intros Hargs Hown. unfold addAction. rewrite Hargs.
  unfold set, hasOwn. rewrite Hown. simpl.
  eexists. split; [reflexivity |]. now rewrite set_group_same.
Qed.

(** C8.  The claim: adding an action twice under one name leaves exactly
    one entry under that name, listed once by [listActionNames].  Assigning
    to the key ["__proto__"] of a plain object sets its prototype instead of
    creating a property: on any newly made group, two [addAction] calls
    under that name leave [listActionNames] empty.  On the group ["less"],
    after [addAction("__proto__", f1)] and
    [addAction("__proto__", ["clean"], f2)] the name is listed no times,
    [loadAllTasks] registers nothing, and only [loadTask("__proto__", gulp)]
    still reaches the second body. *)
Theorem addAction_proto_key_is_not_listed
    (groupName : value) (config : cfg_ref) (deps : list stringOrActionDep)
    (f1 f2 : gulpTaskFn) (w0 : world) :
  let added : M addr :=
    tasks <- new groupName config ;;
    addAction tasks (Args2 "__proto__" f1) ;;;
    addAction tasks (Args3 "__proto__" deps f2) ;;;
    ret tasks in
  let group : M addr :=
    tasks <- new (VString "less") shared_config ;;
    addAction tasks (Args2 "__proto__" (TaskFn 1)) ;;;
    addAction tasks (Args3 "__proto__" [ DepString "clean" ] (TaskFn 2)) ;;;
    ret tasks in
  let w := world_of (group initial) in
  value_of (added w0) = Some (next_group w0) /\
  listActionNames (next_group w0) (world_of (added w0)) = [] /\
  value_of (group initial) = Some 0 /\
  listActionNames 0 w = [] /\
  count_occ string_dec (listActionNames 0 w) "__proto__" = 0 /\
  value_of (Part005.loadAllTasks 0 w) = Some (Some []) /\
  gulp (world_of (Part005.loadAllTasks 0 w)) = [] /\
  gulp (world_of (Part005.loadTask 0 "__proto__" w)) =
    [ {| name := "less:__proto__"; dep := Some [ "less:clean" ]%string; fn := TaskFn 2 |} ].
Proof.
  intros added group w.
  assert (Hgen : value_of (added w0) = Some (next_group w0) /\
                 listActionNames (next_group w0) (world_of (added w0)) = []).
  { subst added. unfold bind, ret.
    destruct (new_makes_group groupName config w0) as [w1 [Hnew [_ [_ [Hreg _]]]]].
    rewrite Hnew.
    destruct (addAction_proto_key (next_group w0) (Args2 "__proto__" f1) w1 [] f1)
      as [w2 [Hadd1 Hreg2]]; [reflexivity | now rewrite Hreg |].
    rewrite Hadd1, Hreg in *. simpl in Hreg2.
    destruct (addAction_proto_key (next_group w0) (Args3 "__proto__" deps f2) w2 deps f2)
      as [w3 [Hadd2 Hreg3]]; [reflexivity | now rewrite Hreg2 |].
    rewrite Hadd2, Hreg2 in *. simpl in Hreg3 |- *.
    split; [reflexivity |]. unfold listActionNames. now rewrite Hreg3. }
  destruct Hgen as [Hv Hl].
  split; [exact Hv | split; [exact Hl | repeat split]].
Qed.

(** ** Group loader *)

Lemma getTaskGroup_cached (fs : GroupLoader.modules) (ld : GroupLoader.t)
    (groupName : string) (a : addr) (w : world) :
  getOwn groupName (GroupLoader._taskGroups ld) = Some a ->
  GroupLoader.getTaskGroup fs ld groupName w = Normal (GroupLoader.Group a, ld) w.
Proof.
  intro H. unfold GroupLoader.getTaskGroup. now rewrite H.
Qed.

Lemma getTaskGroup_first_call (fs : GroupLoader.modules) (ld : GroupLoader.t)
    (groupName : string) (f : tasksModuleFn) (a : addr) (w w' : world) :
  getOwn groupName (GroupLoader._taskGroups ld) = None ->
  inherited ObjectPrototype groupName = false ->
  fs (GroupLoader._getModuleName ld groupName) = Some f ->
  tasksModuleFn_call f (VBool true) (Some (GroupLoader.config ld)) []
    (log_require (GroupLoader._getModuleName ld groupName) w) = Normal a w' ->
  GroupLoader.getTaskGroup fs ld groupName w =
    Normal (GroupLoader.Group a,
            {| GroupLoader.config := GroupLoader.config ld;
               GroupLoader.modulesDir := GroupLoader.modulesDir ld;
               GroupLoader._taskGroups := putOwn groupName a (GroupLoader._taskGroups ld) |})
           w'.
Proof.
  intros Hown Hinh Hfs Hcall. unfold GroupLoader.getTaskGroup. rewrite Hown.
  unfold inherited in Hinh. rewrite orb_false_r in Hinh. rewrite Hinh.
  unfold bind, GroupLoader.require. rewrite Hfs, Hcall. reflexivity.
Qed.

Lemma getTaskGroup_keeps_entries (fs : GroupLoader.modules) (ld ld' : GroupLoader.t)
    (groupName : string) (r : GroupLoader.result) (w w' : world)
    (k : string) (a : addr) :
  GroupLoader.getTaskGroup fs ld groupName w = Normal (r, ld') w' ->
  getOwn k (GroupLoader._taskGroups ld) = Some a ->
  getOwn k (GroupLoader._taskGroups ld') = Some a.
Proof.
  unfold GroupLoader.getTaskGroup.
  destruct (getOwn groupName (GroupLoader._taskGroups ld)) as [a0 |] eqn:Hown.
  { intros [= _ <- _]. auto. }
  destruct ((groupName =? "__proto__")%string || mem groupName Object_prototype_methods).
  { intros [= _ <- _]. auto. }
  unfold bind, GroupLoader.require.
  destruct (fs _) as [f |]; [| discriminate].
  destruct (tasksModuleFn_call f _ _ _ _) as [a1 w1 | e w1]; [| discriminate].
  intros [= _ <- _] Hk. simpl.
  rewrite getOwn_putOwn_other; [exact Hk | congruence].
Qed.

(** X26.  For a group name [_taskGroups] does not inherit, [getTaskGroup]
    memoizes: the first call requires the module at
    [_getModuleName(groupName)], calls its function with [lazyLoad = true]
    and the loader's config, and stores the group it returns; a later call
    returns that group and touches nothing, requiring no module; and every
    entry the cache had, it keeps. *)
Lemma getTaskGroup_memoizes (fs : GroupLoader.modules) (ld : GroupLoader.t)
    (groupName : string) (f : tasksModuleFn) (a : addr) (w w' : world) :
  getOwn groupName (GroupLoader._taskGroups ld) = None ->
  inherited ObjectPrototype groupName = false ->
  fs (GroupLoader._getModuleName ld groupName) = Some f ->
  tasksModuleFn_call f (VBool true) (Some (GroupLoader.config ld)) []
    (log_require (GroupLoader._getModuleName ld groupName) w) = Normal a w' ->
  exists ld',
    GroupLoader.getTaskGroup fs ld groupName w = Normal (GroupLoader.Group a, ld') w' /\
    getOwn groupName (GroupLoader._taskGroups ld') = Some a /\
    (forall w2, GroupLoader.getTaskGroup fs ld' groupName w2 =
                  Normal (GroupLoader.Group a, ld') w2) /\
    (forall k b, getOwn k (GroupLoader._taskGroups ld) = Some b ->
                 getOwn k (GroupLoader._taskGroups ld') = Some b).
Proof.
  intros Hown Hinh Hfs Hcall.
  pose proof (getTaskGroup_first_call fs ld groupName f a w w' Hown Hinh Hfs Hcall) as H.
  eexists. split; [exact H |].
  assert (Hget : getOwn groupName (putOwn groupName a (GroupLoader._taskGroups ld)) = Some a)
    by apply getOwn_putOwn_same.
  split; [exact Hget |]. split.
  - intro w2. now apply getTaskGroup_cached.
  - intros k b Hk. eapply getTaskGroup_keeps_entries; eauto.
Qed.

(** C9.  The claim: the first [getTaskGroup(groupName)] loads the module at
    [_getModuleName(groupName)] and caches the group its function returns.
    [_taskGroups] is a plain object read with [this._taskGroups[groupName]]:
    for a name it inherits from [Object.prototype] the read is truthy on the
    first call already: on a new loader, whatever the modules on disk,
    [getTaskGroup("toString")] returns the inherited function and leaves
    the store as it was.  With [toString-tasks.js] in the modules directory,
    [getTaskGroup("toString")] requires nothing, makes no group, caches
    nothing and returns the inherited function, where
    [getTaskGroup("less")] requires [less-tasks] and returns a group. *)
Theorem getTaskGroup_inherited_name_not_loaded
    (fs : GroupLoader.modules) (TASK_MODULES_DIR : string) (config : cfg_ref)
    (modulesDir : value) (w : world) :
  let fresh := GroupLoader.new TASK_MODULES_DIR config modulesDir in
  let ld := GroupLoader.new "tasks/" shared_config VUndefined in
  let call := fun n => GroupLoader.getTaskGroup GroupLoader.example_modules ld n initial in
  GroupLoader.getTaskGroup fs fresh "toString" w =
    Normal (GroupLoader.Inherited "toString", fresh) w /\
  GroupLoader.example_modules (GroupLoader._getModuleName ld "toString") =
    Some (createTasksModule part_005 (VString "toString") (Some less_actions)) /\
  value_of (call "toString"%string) = Some (GroupLoader.Inherited "toString", ld) /\
  required (world_of (call "toString"%string)) = [] /\
  next_group (world_of (call "toString"%string)) = 0 /\
  option_map fst (value_of (call "less"%string)) = Some (GroupLoader.Group 0) /\
  option_map (fun r => GroupLoader.loadedTaskGroups (snd r)) (value_of (call "less"%string)) =
    Some [ "less"%string ] /\
  required (world_of (call "less"%string)) = [ "tasks/less-tasks"%string ].
Proof.
  intros fresh ld call. split.
  - (* the cache of a new loader has no own property; "toString" is inherited *)
    unfold GroupLoader.getTaskGroup. subst fresh. simpl. reflexivity.
  - subst ld call. repeat split.
Qed.

(** ** The lemmas above at the spec's scenario *)

Lemma less_group_wf : wf_group (world_of (less_group initial)) 0.
Proof.
  unfold wf_group. simpl. split.
  - repeat constructor; simpl; intuition discriminate.
  - repeat constructor.
Qed.

Lemma loadTask_registered_at_less :
  exists t,
    name t = "less:hint"%string /\
    Part005.loadTask 0 "hint" (world_of (less_group initial)) =
      Normal (RValue (VString "less:hint")) (gulp_task t (world_of (less_group initial))) /\
    Types.loadTask 0 "hint" (world_of (less_group initial)) =
      Normal (RValue VUndefined) (gulp_task t (world_of (less_group initial))).
Proof.
  apply (loadTask_registered 0 "hint" (world_of (less_group initial)) less_group_wf).
  simpl. auto.
Defined.

Lemma Part005_loadAllTasks_registered_at_less :
  value_of (Part005.loadAllTasks 0 (world_of (less_group initial))) =
    Some (Some [ RValue (VString "less:build"); RValue (VString "less:hint") ]) /\
  length (listActionNames 0 (world_of (less_group initial))) = 2.
Proof.
  destruct (Part005_loadAllTasks_registered 0 (world_of (less_group initial)) less_group_wf)
    as [H [Hlen _]].
  split; [now rewrite H | exact Hlen].
Defined.

Lemma loadTask_unknown_throws_at_less :
  thrown (Types.loadTask 0 "clean" (world_of (less_group initial))) = Some TypeError /\
  thrown (Part005.loadTask 0 "clean" (world_of (less_group initial))) = Some TypeError.
Proof.
  destruct (loadTask_unknown_throws 0 "clean" (world_of (less_group initial))
              eq_refl eq_refl) as [H1 H2].
  now rewrite H1, H2.
Defined.

Lemma addAction_twice_replaces_at_less :
  exists w',
    (addAction 0 (Args2 "build" (TaskFn 3)) ;;;
     addAction 0 (Args3 "build" [ DepString "hint" ] (TaskFn 4)))
      (world_of (less_group initial)) = Normal tt w' /\
    count_occ string_dec (listActionNames 0 w') "build" = 1 /\
    gulp (world_of (Part005.loadTask 0 "build" w')) =
      [ {| name := "less:build"; dep := Some [ "less:hint"%string ]; fn := TaskFn 4 |} ].
Proof.
  destruct (addAction_twice_replaces 0
              (Args2 "build" (TaskFn 3)) (Args3 "build" [ DepString "hint" ] (TaskFn 4))
              (world_of (less_group initial)) "build" [] [ DepString "hint" ]
              (TaskFn 3) (TaskFn 4) eq_refl eq_refl)
    as [w' [Hrun [Hcount [_ [_ [Hgulp Hload]]]]]].
  - discriminate.
  - reflexivity.
  - exact less_group_wf.
  - exists w'. split; [exact Hrun |]. split; [exact Hcount |].
    rewrite Hload. simpl. rewrite Hgulp.
    unfold bind in Hrun. simpl in Hrun. injection Hrun as <-. reflexivity.
Defined.

Lemma getTaskGroup_memoizes_at_less :
  exists ld' w',
    GroupLoader.getTaskGroup GroupLoader.example_modules
      (GroupLoader.new "tasks/" shared_config VUndefined) "less" initial =
      Normal (GroupLoader.Group 0, ld') w' /\
    required w' = [ "tasks/less-tasks"%string ] /\
    GroupLoader.getTaskGroup GroupLoader.example_modules ld' "less" w' =
      Normal (GroupLoader.Group 0, ld') w'.
Proof.
  destruct (getTaskGroup_memoizes GroupLoader.example_modules
              (GroupLoader.new "tasks/" shared_config VUndefined) "less"
              (createTasksModule part_005 (VString "less") (Some less_actions)) 0 initial
              (world_of (tasksModuleFn_call
                 (createTasksModule part_005 (VString "less") (Some less_actions))
                 (VBool true) (Some shared_config) []
                 (log_require "tasks/less-tasks" initial)))
              eq_refl eq_refl eq_refl eq_refl)
    as [ld' [Hfirst [_ [Hlater _]]]].
  exists ld'. eexists. split; [exact Hfirst |]. split; [reflexivity | apply Hlater].
Defined.

(** ** What the two revisions return *)

Lemma Types_loadAllTasks_loop_registered (a : addr) (w : world) (ks : list string) :
  wf_group w a ->
  Forall (fun k => In k (map fst (own (_taskLoaders (groups w a))))) ks ->
  forall ts : list task,
    Types.loadAllTasks_loop a ks (gulp_tasks ts w) =
      Normal tt (gulp_tasks (ts ++ map (fun f => loader_task f w)
                                       (loaders_of (_taskLoaders (groups w a)) ks)) w).
Proof.
  intros Hwf Hks. induction Hks as [| k ks Hk Hks IH]; intro ts; simpl.
  - now rewrite app_nil_r.
  - destruct (In_keys_getOwn _ _ Hk) as [f Hf].
    unfold bind.
    rewrite (Types_loadTask_own a k f (gulp_tasks ts w)) by exact Hf.
    rewrite loader_task_gulp_tasks, gulp_task_is_gulp_tasks, gulp_tasks_app, IH.
    rewrite Hf. simpl. rewrite <- !app_assoc. reflexivity.
Qed.

Lemma loaders_load_one_by_one (g : addr) (w : world) (ks : list string) :
  wf_group w g ->
  Forall (fun k => In k (map fst (own (_taskLoaders (groups w g))))) ks ->
  Forall2 (fun k t =>
             name t = createTaskName g k w /\
             Part005.loadTask g k w = Normal (RValue (VString (name t))) (gulp_task t w) /\
             Types.loadTask g k w = Normal (RValue VUndefined) (gulp_task t w))
          ks (map (fun f => loader_task f w) (loaders_of (_taskLoaders (groups w g)) ks)).
Proof.
  intros Hwf Hks. induction Hks as [| k ks Hk Hks IH]; simpl; [constructor |].
  destruct (In_keys_getOwn _ _ Hk) as [f Hf].
  destruct (wf_group_own _ _ _ _ Hwf Hf) as [Hthis Hname].
  rewrite Hf. simpl. constructor; [| exact IH].
  split; [simpl; now rewrite Hthis, Hname |]. split.
  - apply Part005_loadTask_own, Hf.
  - apply Types_loadTask_own, Hf.
Qed.

(** C4.  The claim: [loadTask] on a registered action registers the task
    with the host and returns its name, [createTaskName(actionName)].
    Amended: on a group as the constructor and [addAction] build it, for
    every action name of its registry, [loadTask] registers the action's
    task function with the host under [createTaskName(actionName)], with
    the resolved dependency names when the action has dependencies and
    without a dependency list otherwise; in src/unnamed/part_005 it then
    returns that name, in src/types/task-group.js, whose [loadTask] and
    loader closure have no [return], it returns [undefined]. *)
Theorem loadTask_registers_under_task_name (g : addr) (actionName : string) (w : world) :
  wf_group w g ->
  In actionName (listActionNames g w) ->
  exists f,
    getOwn actionName (own (_taskLoaders (groups w g))) = Some f /\
    let t := {| name := createTaskName g actionName w;
                dep := match actionDeps f with
                       | [] => None
                       | _ :: _ => Some (resolveDepNames g (actionDeps f) w)
                       end;
                fn := taskFn f |} in
    Part005.loadTask g actionName w =
      Normal (RValue (VString (createTaskName g actionName w))) (gulp_task t w) /\
    Types.loadTask g actionName w = Normal (RValue VUndefined) (gulp_task t w).
Proof.
  intros Hwf Hin. apply listActionNames_registered in Hin. destruct Hin as [f Hf].
  destruct (wf_group_own _ _ _ _ Hwf Hf) as [Hthis Hname].
  exists f. split; [exact Hf |]. intro t.
  assert (Ht : loader_task f w = t).
  { unfold loader_task. subst t. now rewrite Hthis, Hname. }
  rewrite (Part005_loadTask_own _ _ _ _ Hf), (Types_loadTask_own _ _ _ _ Hf), Ht.
  split; reflexivity.
Qed.

Lemma loadTask_registers_under_task_name_witness :
  Part005.loadTask 0 "hint" (world_of (less_group initial)) =
    Normal (RValue (VString "less:hint"))
           (gulp_task {| name := "less:hint"; dep := None; fn := TaskFn 2 |}
                      (world_of (less_group initial))) /\
  Types.loadTask 0 "hint" (world_of (less_group initial)) =
    Normal (RValue VUndefined)
           (gulp_task {| name := "less:hint"; dep := None; fn := TaskFn 2 |}
                      (world_of (less_group initial))).
Proof.
  destruct (loadTask_registers_under_task_name 0 "hint" (world_of (less_group initial))
              less_group_wf) as [f [Hf H]].
  - simpl. auto.
  - simpl in Hf. injection Hf as <-. exact H.
Defined.

(** C4, the claim as it is stated fails on src/types/task-group.js: on the
    group ["less"], ["hint"] is in the registry and [loadTask("hint", gulp)]
    returns [undefined], not the task name ["less:hint"]. *)
Lemma loadTask_returns_name_counterexample :
  In "hint"%string (listActionNames 0 (world_of (less_group initial))) /\
  createTaskName 0 "hint" (world_of (less_group initial)) = "less:hint"%string /\
  value_of (Types.loadTask 0 "hint" (world_of (less_group initial))) =
    Some (RValue VUndefined) /\
  value_of (Types.loadTask 0 "hint" (world_of (less_group initial))) <>
    Some (RValue (VString (createTaskName 0 "hint" (world_of (less_group initial))))).
Proof.
  split; [simpl; auto |]. split; [reflexivity |]. split; [reflexivity |].
  discriminate.
Qed.

(** C5.  The claim: [loadAllTasks] calls [loadTask] once per registered
    action name, in enumeration order, and returns the N task names, each
    the [createTaskName] of its action.  Amended: on a group as the
    constructor and [addAction] build it, with N registered actions,
    [loadAllTasks] registers N tasks with the host, the one [loadTask]
    registers for each name of [listActionNames], in that order, each
    under the [createTaskName] of its action; in src/unnamed/part_005 it
    then returns the sequence of these N names, in
    src/types/task-group.js, whose [loadAllTasks] collects nothing and has
    no [return], it returns [undefined]. *)
Theorem loadAllTasks_registers_every_action (g : addr) (w : world) :
  wf_group w g ->
  let names := listActionNames g w in
  exists ts,
    length ts = length names /\
    Forall2 (fun k t =>
               name t = createTaskName g k w /\
               Part005.loadTask g k w = Normal (RValue (VString (name t))) (gulp_task t w) /\
               Types.loadTask g k w = Normal (RValue VUndefined) (gulp_task t w))
            names ts /\
    Part005.loadAllTasks g w =
      Normal (Some (map (fun k => RValue (VString (createTaskName g k w))) names))
             (gulp_tasks ts w) /\
    Types.loadAllTasks g w = Normal None (gulp_tasks ts w).
Proof.
  intros Hwf names. subst names.
  assert (Hks : Forall (fun k => In k (map fst (own (_taskLoaders (groups w g)))))
                       (keys (_taskLoaders (groups w g)))).
  { apply Forall_forall. intros k Hk. now apply ownKeys_In in Hk. }
  pose proof (loaders_load_one_by_one g w _ Hwf Hks) as Hall.
  eexists. split; [| split; [exact Hall | split]].
  - symmetry. eapply Forall2_length. exact Hall.
  - unfold Part005.loadAllTasks, bind.
    pose proof (Part005_loadAllTasks_loop_registered g w _ Hwf Hks [] []) as H.
    rewrite gulp_tasks_nil in H. rewrite H. reflexivity.
  - unfold Types.loadAllTasks, bind.
    pose proof (Types_loadAllTasks_loop_registered g w _ Hwf Hks []) as H.
    rewrite gulp_tasks_nil in H. rewrite H. reflexivity.
Qed.

Lemma loadAllTasks_registers_every_action_witness :
  exists ts,
    map name ts = [ "less:build"%string; "less:hint"%string ] /\
    Part005.loadAllTasks 0 (world_of (less_group initial)) =
      Normal (Some [ RValue (VString "less:build"); RValue (VString "less:hint") ])
             (gulp_tasks ts (world_of (less_group initial))) /\
    Types.loadAllTasks 0 (world_of (less_group initial)) =
      Normal None (gulp_tasks ts (world_of (less_group initial))).
Proof.
  destruct (loadAllTasks_registers_every_action 0 (world_of (less_group initial))
              less_group_wf) as [ts [_ [Hall [H5 Ht]]]].
  exists ts. split; [| split; [exact H5 | exact Ht]].
  simpl in Hall.
  inversion Hall as [| k1 t1 ks1 ts1 [Hn1 _] Hrest1]; subst.
  inversion Hrest1 as [| k2 t2 ks2 ts2 [Hn2 _] Hrest2]; subst.
  inversion Hrest2; subst. simpl. now rewrite Hn1, Hn2.
Defined.

(** C5, the claim as it is stated fails on src/types/task-group.js: on the
    group ["less"], which has two registered actions, [loadAllTasks(gulp)]
    returns [undefined], not a sequence of two task names. *)
Lemma loadAllTasks_returns_names_counterexample :
  length (listActionNames 0 (world_of (less_group initial))) = 2 /\
  value_of (Types.loadAllTasks 0 (world_of (less_group initial))) = Some None /\
  (forall taskNames : list returned,
     value_of (Types.loadAllTasks 0 (world_of (less_group initial))) <>
       Some (Some taskNames)).
Proof.
  split; [reflexivity |]. split; [reflexivity |].
  intro taskNames. discriminate.
Qed.

(* ================================================================== *)
(** * Further properties *)

(** ** Paths and globs *)

Lemma substr_last_append (s : string) (c : ascii) :
  BuildConfigPaths.substr_last (s ++ String c EmptyString) = String c EmptyString.
Proof.
  induction s as [| d s IH]; simpl; [reflexivity |].
  rewrite IH. destruct (s ++ String c EmptyString)%string eqn:E; [| reflexivity].
  destruct s; discriminate.
Qed.

(** X1.  [BuildConfig.addTrailingSlash]: the result always ends with the
    path separator, a directory that already ends with it is returned as it
    is, and adding the slash twice adds it once. *)
Theorem addTrailingSlash_ends_with_sep (path : BuildConfigPaths.path_module) (dir : string) :
  let slash := String (BuildConfigPaths.sep path) EmptyString in
  BuildConfigPaths.substr_last (BuildConfigPaths.addTrailingSlash path dir) = slash /\
  (BuildConfigPaths.substr_last dir = slash <->
   BuildConfigPaths.addTrailingSlash path dir = dir) /\
  BuildConfigPaths.addTrailingSlash path (BuildConfigPaths.addTrailingSlash path dir) =
    BuildConfigPaths.addTrailingSlash path dir.
Proof.
  intro slash. subst slash.
  assert (H1 : BuildConfigPaths.substr_last (BuildConfigPaths.addTrailingSlash path dir) =
               String (BuildConfigPaths.sep path) EmptyString).
  { unfold BuildConfigPaths.addTrailingSlash.
    destruct (BuildConfigPaths.substr_last dir =? _)%string eqn:E; simpl.
    - now apply String.eqb_eq in E.
    - apply substr_last_append. }
  split; [exact H1 |]. split.
  - split.
    + intro H. unfold BuildConfigPaths.addTrailingSlash.
      apply String.eqb_eq in H. now rewrite H.
    + intro H. now rewrite <- H at 1.
  - unfold BuildConfigPaths.addTrailingSlash at 1.
    apply String.eqb_eq in H1. now rewrite H1.
Qed.

Lemma existsb_eqb_In (x : string) (l : list string) :
  existsb (String.eqb x) l = true <-> In x l.
Proof.
  rewrite existsb_exists. split.
  - intros [y [Hin Heq]]. apply String.eqb_eq in Heq. now subst.
  - intro H. exists x. split; [assumption | apply String.eqb_refl].
Qed.

Lemma filter_filter {A} (f g : A -> bool) (l : list A) :
  filter f (filter g l) = filter (fun x => g x && f x) l.
Proof.
  induction l as [| x l IH]; simpl; [reflexivity |].
  destruct (g x); simpl; [destruct (f x) |]; now rewrite IH.
Qed.

Lemma fold_push_first_occurrences (l globs : list string) :
  fold_left BuildConfigPaths.push_unless_present l globs =
    globs ++ filter (fun y => negb (existsb (String.eqb y) globs))
                    (BuildConfigPaths.first_occurrences l).
Proof.
  revert globs. induction l as [| x l IH]; intro globs; simpl.
  - now rewrite app_nil_r.
  - rewrite IH. unfold BuildConfigPaths.push_unless_present.
    destruct (existsb (String.eqb x) globs) eqn:E; simpl.
    + f_equal. rewrite filter_filter. apply filter_ext_in. intros y _.
      destruct (y =? x)%string eqn:Eyx; simpl; [| reflexivity].
      apply String.eqb_eq in Eyx. subst y. now rewrite E.
    + rewrite <- app_assoc. simpl. f_equal. f_equal.
      rewrite filter_filter. apply filter_ext_in. intros y _.
      rewrite existsb_app. simpl.
      destruct (y =? x)%string, (existsb (String.eqb y) globs); reflexivity.
Qed.

Lemma collect_fold (arguments : list BuildConfigPaths.glob_argument) (globs : list string) :
  BuildConfigPaths.collect arguments globs =
    fold_left BuildConfigPaths.push_unless_present
              (BuildConfigPaths.given arguments) globs.
Proof.
  revert globs. induction arguments as [| [s | l] rest IH]; intro globs; simpl.
  - reflexivity.
  - apply IH.
  - rewrite fold_left_app. apply IH.
Qed.

Lemma first_occurrences_In (l : list string) (x : string) :
  In x (BuildConfigPaths.first_occurrences l) <-> In x l.
Proof.
  induction l as [| y l IH]; simpl; [tauto |].
  rewrite filter_In, IH, negb_true_iff, String.eqb_neq.
  destruct (string_dec y x); [subst; tauto |]. split.
  - intros [H | [H _]]; auto.
  - intros [H | H]; [auto | right; split; [assumption | congruence]].
Qed.

Lemma first_occurrences_NoDup (l : list string) :
  NoDup (BuildConfigPaths.first_occurrences l).
Proof.
  induction l as [| y l IH]; simpl; constructor.
  - rewrite filter_In, String.eqb_refl. simpl. intros [_ H]. discriminate.
  - now apply NoDup_filter.
Qed.

(** X2.  [BuildConfig.prototype.srcGlobs]: the globs given, in strings and
    in arrays, are taken once each, every one at its first place; the
    result is [srcPath()] when none is left, [srcPath(glob)] as a string
    when one is, and otherwise the array of the [srcPath(glob)], one per
    distinct glob and in that order. *)
Theorem srcGlobs_first_occurrences (path : BuildConfigPaths.path_module)
    (this : BuildConfigPaths.paths_settings)
    (arguments : list BuildConfigPaths.glob_argument) :
  let globs := BuildConfigPaths.first_occurrences (BuildConfigPaths.given arguments) in
  BuildConfigPaths.srcGlobs path this arguments =
    match globs with
    | [] => BuildConfigPaths.OneGlob (BuildConfigPaths.srcPath path this None)
    | [g] => BuildConfigPaths.OneGlob (BuildConfigPaths.srcPath path this (Some g))
    | _ => BuildConfigPaths.Globs
             (map (fun g => BuildConfigPaths.srcPath path this (Some g)) globs)
    end /\
  NoDup globs /\
  (forall g, In g globs <-> In g (BuildConfigPaths.given arguments)).
Proof.
  intro globs. subst globs.
  split; [| split; [apply first_occurrences_NoDup | apply first_occurrences_In]].
  assert (H : BuildConfigPaths.collect arguments [] =
              BuildConfigPaths.first_occurrences (BuildConfigPaths.given arguments)).
  { rewrite collect_fold, fold_push_first_occurrences. simpl.
    induction (BuildConfigPaths.first_occurrences _) as [| x l IH]; simpl; congruence. }
  unfold BuildConfigPaths.srcGlobs. rewrite H.
  destruct arguments as [| a rest]; [reflexivity |].
  destruct (BuildConfigPaths.first_occurrences _) as [| g [| g' gs]]; reflexivity.
Qed.

(** ** Task names do not collide *)

Import Vocabulary.

Lemma append_inv_head (a b c : string) : (a ++ b = a ++ c)%string -> b = c.
Proof.
  induction a as [| ch a IH]; simpl; [auto |]. intros [= H]. auto.
Qed.

Lemma length_append (a b : string) :
  String.length (a ++ b) = String.length a + String.length b.
Proof.
  induction a as [| ch a IH]; simpl; [reflexivity | now rewrite IH].
Qed.

Lemma append_inv_tail (a b s : string) : (a ++ s = b ++ s)%string -> a = b.
Proof.
  revert b. induction a as [| ch a IH]; intros b H.
  - destruct b as [| ch' b]; [reflexivity |].
    apply (f_equal String.length) in H. simpl in H. rewrite length_append in H. lia.
  - destruct b as [| ch' b].
    + apply (f_equal String.length) in H. simpl in H. rewrite length_append in H. lia.
    + simpl in H. injection H as -> H. f_equal. auto.
Qed.

Lemma separator_splits (a b c d : string) :
  no_separator a = true -> no_separator c = true ->
  (a ++ ":" ++ b = c ++ ":" ++ d)%string -> a = c /\ b = d.
Proof.
  revert c. induction a as [| x a IH]; intros c Ha Hc H.
  - destruct c as [| y c]; simpl in *.
    + injection H as ->. auto.
    + injection H as <- _. simpl in Hc. discriminate.
  - destruct c as [| y c]; simpl in *.
    + injection H as -> _. simpl in Ha. discriminate.
    + injection H as -> H.
      apply andb_true_iff in Ha. apply andb_true_iff in Hc.
      destruct (IH c (proj2 Ha) (proj2 Hc) H) as [-> ->]. auto.
Qed.

Lemma createTaskName_same_name (this : addr) (a a' : string) (w : world) :
  createTaskName this a w = createTaskName this a' w -> a = a'.
Proof.
  unfold createTaskName, BuildConfig.createTaskName, plus_str, str_plus,
    BuildConfig.TASK_NAME_SEPARATOR. simpl.
  destruct (BuildConfig.groupBeforeAction _);
    destruct (truthy (Js.or VUndefined _)); intro H;
    repeat apply append_inv_head in H;
    try (apply append_inv_tail, append_inv_tail in H);
    exact H.
Qed.

(** X3.  [GulpTaskGroup.prototype.createTaskName]: within one group, under
    any naming policy, two action names get the same task name only if they
    are the same action name. *)
Theorem createTaskName_injective (this : addr) (a a' : string) (w : world) :
  createTaskName this a w = createTaskName this a' w <-> a = a'.
Proof.
  split; [apply createTaskName_same_name | now intros ->].
Qed.

(** X4.  [BuildConfig.prototype.createTaskName]: under one policy and one
    prefix, group and action names that contain no [:] never collide: equal
    task names come from equal group names and equal action names. *)
Theorem createTaskName_no_collision (cfg : BuildConfig.t) (g a g' a' : string)
    (prefixName : value) :
  no_separator g = true -> no_separator a = true ->
  no_separator g' = true -> no_separator a' = true ->
  BuildConfig.createTaskName cfg (VString g) (VString a) prefixName =
    BuildConfig.createTaskName cfg (VString g') (VString a') prefixName ->
  g = g' /\ a = a'.
Proof.
  intros Hg Ha Hg' Ha'.
  unfold BuildConfig.createTaskName, plus_str, str_plus,
    BuildConfig.TASK_NAME_SEPARATOR. simpl.
  destruct (BuildConfig.groupBeforeAction _);
    destruct (truthy (Js.or prefixName _)); intro H;
    try apply append_inv_head in H;
    rewrite !append_assoc in H;
    apply separator_splits in H; try assumption; tauto.
Qed.

Lemma createTaskName_no_collision_witness :
  "less"%string = "less"%string /\ "build"%string = "build"%string.
Proof.
  apply (createTaskName_no_collision BuildConfig.new "less" "build" "less" "build" VUndefined);
    reflexivity.
Defined.

Lemma NoDup_map_injective {A B} (f : A -> B) (l : list A) :
  (forall x y, f x = f y -> x = y) -> NoDup l -> NoDup (map f l).
Proof.
  intros Hinj H. induction H as [| x l Hx Hl IH]; simpl; constructor; [| exact IH].
  rewrite in_map_iff. intros [y [Hy Hin]]. apply Hinj in Hy. now subst.
Qed.

(** X5.  [GulpTaskGroup.prototype.loadAllTasks] (part_005), on a group
    built through [new] and [addAction]: it returns, the host receives one
    task per registered action and nothing else, the tasks carry pairwise
    distinct names, and the names returned are those names, in the order of
    [listActionNames]. *)
Theorem Part005_loadAllTasks_distinct_names (g : addr) (w : world) :
  wf_group w g ->
  exists ts,
    Part005.loadAllTasks g w =
      Normal (Some (map (fun t => RValue (VString (name t))) ts)) (gulp_tasks ts w) /\
    map name ts = map (fun k => createTaskName g k w) (listActionNames g w) /\
    length ts = length (own (_taskLoaders (groups w g))) /\
    NoDup (map name ts).
Proof.
  intro Hwf.
  destruct (Part005_loadAllTasks_registered g w Hwf) as [Hrun [Hlen Hnames]].
  exists (map (fun f => loader_task f w)
              (loaders_of (_taskLoaders (groups w g)) (keys (_taskLoaders (groups w g))))).
  split; [| split; [exact Hnames | split]].
  - rewrite Hrun. f_equal. f_equal.
    rewrite <- (map_map name (fun n => RValue (VString n))), Hnames, map_map.
    reflexivity.
  - rewrite <- Hlen, <- (length_map (fun k => createTaskName g k w)), <- Hnames.
    now rewrite !length_map.
  - rewrite Hnames. apply NoDup_map_injective.
    + intros a a' H. now apply createTaskName_same_name in H.
    + apply ownKeys_NoDup, Hwf.
Qed.

Lemma Part005_loadAllTasks_distinct_names_witness :
  exists ts,
    Part005.loadAllTasks 0 (world_of (less_group initial)) =
      Normal (Some (map (fun t => RValue (VString (name t))) ts))
             (gulp_tasks ts (world_of (less_group initial))) /\
    map name ts = [ "less:build"; "less:hint" ]%string.
Proof.
  destruct (Part005_loadAllTasks_distinct_names 0 (world_of (less_group initial))
              less_group_wf) as [ts [Hrun [Hnames _]]].
  exists ts. split; [exact Hrun | exact Hnames].
Defined.

(** ** The older [createTaskName] *)

(** X6.  [BuildConfig.prototype.createTaskName] of src/unnamed/part_004:
    called with a group name other than [null] it returns what the newer
    function (part_000) returns; called with a components object it
    returns what the newer function returns for the object's [group],
    [action] and [prefix], whatever its other arguments; called with
    [null], for which the newer function builds a name from ["null"], it
    throws a TypeError. *)
Theorem Part004_createTaskName_agrees (cfg : BuildConfig.t)
    (v group action prefix actionName prefixName : value) :
  BuildConfigPart004.createTaskName cfg (BuildConfigPart004.GroupName v)
      actionName prefixName =
    match v with
    | VNull => inr TypeError
    | _ => inl (BuildConfig.createTaskName cfg v actionName prefixName)
    end /\
  BuildConfigPart004.createTaskName cfg
      (BuildConfigPart004.Components group action prefix) actionName prefixName =
    inl (BuildConfig.createTaskName cfg group action prefix) /\
  BuildConfig.createTaskName cfg VNull actionName prefixName =
    BuildConfig.createTaskName cfg (VString "null") actionName prefixName.
Proof.
  split; [| split].
  - destruct v; reflexivity.
  - reflexivity.
  - reflexivity.
Qed.

(** ** Dependencies *)

(** X7.  [getActionDep] and [ActionDependency.prototype.createTaskName]:
    the dependency a group hands out for one of its actions resolves, in
    any group that holds the same config object, to the task name the
    owning group gives that action, provided the owning group's name is
    truthy or the two groups have the same name. *)
Theorem getActionDep_resolves_to_owner (owner context : addr) (actionName : string)
    (w : world) :
  config (groups w owner) = config (groups w context) ->
  truthy (groupName (groups w owner)) = true \/
    groupName (groups w owner) = groupName (groups w context) ->
  ActionDependency_createTaskName (getActionDep owner actionName w) context w =
    createTaskName owner actionName w.
Proof.
  intros Hcfg Hname.
  unfold ActionDependency_createTaskName. rewrite isExternalTo_truthy. simpl.
  destruct (strict_neq (groupName (groups w owner)) (groupName (groups w context))) eqn:E.
  - destruct Hname as [Ht | He].
    + rewrite Ht. simpl. unfold createTaskName. now rewrite Hcfg.
    + apply strict_neq_true_iff in E. contradiction.
  - apply strict_neq_false_iff in E. rewrite andb_false_r.
    unfold createTaskName. now rewrite Hcfg, E.
Qed.

Lemma getActionDep_resolves_to_owner_witness :
  let w := world_of ((new (VString "fonts") shared_config ;;;
                      new (VString "less") shared_config) initial) in
  ActionDependency_createTaskName (getActionDep 0 "copy" w) 1 w = "fonts:copy"%string.
Proof.
  intro w.
  rewrite (getActionDep_resolves_to_owner 0 1 "copy" w); [reflexivity | reflexivity |].
  left. reflexivity.
Defined.

(** X8.  [GulpTaskGroup.prototype.resolveDepNames]: it returns one name
    per entry, in the order of the entries, and resolves a bare action name
    exactly as it resolves the dependency [this.getActionDep(name)]. *)
Theorem resolveDepNames_entrywise (this : addr) (deps : list stringOrActionDep) (w : world) :
  resolveDepNames this deps w =
    map (fun dep => ActionDependency_createTaskName (own_dependency this w dep) this w) deps
  /\ length (resolveDepNames this deps w) = length deps.
Proof.
  assert (H : resolveDepNames this deps w =
    map (fun dep => ActionDependency_createTaskName (own_dependency this w dep) this w) deps).
  { unfold resolveDepNames. rewrite resolveDepNames_loop_map. simpl.
    apply map_ext. intros [s | d]; [| reflexivity].
    unfold ActionDependency_createTaskName. rewrite isExternalTo_truthy. simpl.
    assert (E : strict_neq (groupName (groups w this)) (groupName (groups w this)) = false)
      by now apply strict_neq_false_iff.
    now rewrite E, andb_false_r. }
  split; [exact H | now rewrite H, length_map].
Qed.

(** ** Adding actions *)

Lemma ownKeys_depends_on_keys {A B} (l : list (string * A)) (l' : list (string * B)) :
  map fst l = map fst l' -> ownKeys l = ownKeys l'.
Proof. unfold ownKeys. now intros ->. Qed.

Lemma no_index_keys (ks : list string) :
  Forall (fun k => array_index k = None) ks ->
  index_keys ks = [] /\ named_keys ks = ks.
Proof.
  induction 1 as [| k ks Hk Hks [IH1 IH2]]; [split; reflexivity |].
  unfold named_keys in *. simpl. rewrite Hk, IH1, IH2. split; reflexivity.
Qed.

Lemma ownKeys_named {A} (l : list (string * A)) :
  Forall (fun k => array_index k = None) (map fst l) -> ownKeys l = map fst l.
Proof.
  intro H. unfold ownKeys. destruct (no_index_keys _ H) as [-> ->]. reflexivity.
Qed.

Lemma addAction_own (a : addr) (args : addAction_arguments) (w w' : world)
    (k : string) (deps : list stringOrActionDep) (f : gulpTaskFn) :
  addAction_parameters args = (k, deps, f) ->
  k <> "__proto__"%string ->
  addAction a args w = Normal tt w' ->
  own (_taskLoaders (groups w' a)) =
    putOwn k (_createTaskLoaderFn a k deps f) (own (_taskLoaders (groups w a))).
Proof.
  intros Hargs Hk. unfold addAction. rewrite Hargs.
  apply String.eqb_neq in Hk. unfold set. rewrite Hk.
  destruct (hasOwn k _).
  - intros [= <-]. now rewrite set_group_same.
  - destruct (proto _).
    + intros [= <-]. now rewrite set_group_same.
    + destruct (mem k Function_chain_unassignable); [discriminate |].
      intros [= <-]. now rewrite set_group_same.
Qed.

(** X9.  [GulpTaskGroup.prototype.addAction] and [listActionNames]: when
    [addAction] returns, for an action name other than ["__proto__"]: a name
    that was listed leaves [listActionNames] as it was; a new name makes it
    one longer and appears in it; and when neither the new name nor a listed
    one is an array index (["0"], ["1"], ...), the new name comes last. *)
Theorem addAction_listActionNames (g : addr) (args : addAction_arguments) (w w' : world) :
  let k := fst (fst (addAction_parameters args)) in
  addAction g args w = Normal tt w' ->
  k <> "__proto__"%string ->
  (In k (listActionNames g w) -> listActionNames g w' = listActionNames g w) /\
  (~ In k (listActionNames g w) ->
   Permutation (listActionNames g w') (k :: listActionNames g w) /\
   length (listActionNames g w') = S (length (listActionNames g w)) /\
   (array_index k = None ->
    Forall (fun n => array_index n = None) (listActionNames g w) ->
    listActionNames g w' = listActionNames g w ++ [k])).
Proof.
  intros k Hadd Hk. subst k.
  destruct (addAction_parameters args) as [[k deps] f] eqn:Hargs. simpl in *.
  pose proof (addAction_own g args w w' k deps f Hargs Hk Hadd) as Hown.
  unfold listActionNames, keys. rewrite Hown. split.
  - intro Hin. apply ownKeys_In in Hin.
    apply ownKeys_depends_on_keys. now apply keys_putOwn_present.
  - intro Hout. rewrite ownKeys_In in Hout.
    assert (Hkeys : map fst (putOwn k (_createTaskLoaderFn g k deps f)
                                 (own (_taskLoaders (groups w g)))) =
                    map fst (own (_taskLoaders (groups w g))) ++ [k])
      by now apply keys_putOwn_absent.
    assert (Hperm : Permutation
              (ownKeys (putOwn k (_createTaskLoaderFn g k deps f)
                               (own (_taskLoaders (groups w g)))))
              (k :: ownKeys (own (_taskLoaders (groups w g))))).
    { rewrite ownKeys_perm, Hkeys, (ownKeys_perm (own _)).
      rewrite Permutation_app_comm. reflexivity. }
    split; [exact Hperm | split].
    + now rewrite (Permutation_length Hperm).
    + intros Hnk Hall.
      assert (Hall' : Forall (fun n => array_index n = None)
                             (map fst (own (_taskLoaders (groups w g))))).
      { apply Forall_forall. intros n Hn. rewrite Forall_forall in Hall.
        apply Hall. now apply ownKeys_In. }
      rewrite (ownKeys_named (own _) Hall'), ownKeys_named; [exact Hkeys |].
      rewrite Hkeys. apply Forall_app. split; [exact Hall' | now constructor].
Qed.

Lemma addAction_listActionNames_witness :
  exists w',
    addAction 0 (Args2 "clean" (TaskFn 3)) (world_of (less_group initial)) = Normal tt w' /\
    listActionNames 0 w' = [ "build"; "hint"; "clean" ]%string.
Proof.
  eexists. split; [reflexivity |].
  destruct (addAction_listActionNames 0 (Args2 "clean" (TaskFn 3))
              (world_of (less_group initial)) _ eq_refl) as [_ Hnew].
  - discriminate.
  - destruct Hnew as [_ [_ Happ]].
    + simpl. intuition discriminate.
    + rewrite Happ; [reflexivity | reflexivity |]. repeat constructor.
Defined.

(** X10.  [GulpTaskGroup.prototype.addAction] changes one thing: the
    [_taskLoaders] of the group it is called on.  Whether it returns or
    throws, every other group, the group's own name and config reference,
    every config and the host are as before, and a group built through [new]
    and [addAction] stays one. *)
Theorem addAction_touches_one_group (g : addr) (args : addAction_arguments) (w : world) :
  let w' := world_of (addAction g args w) in
  (forall b, b <> g -> groups w' b = groups w b) /\
  groupName (groups w' g) = groupName (groups w g) /\
  config (groups w' g) = config (groups w g) /\
  gulp w' = gulp w /\ configs w' = configs w /\
  next_group w' = next_group w /\ required w' = required w /\
  (wf_group w g -> wf_group w' g).
Proof.
  intro w'. subst w'.
  assert (Hwf : forall w1, addAction g args w = Normal tt w1 -> wf_group w g -> wf_group w1 g)
    by (intros w1 E; apply (addAction_wf _ _ _ _ E)).
  unfold addAction in *.
  destruct (addAction_parameters args) as [[k deps] f].
  destruct (set _ k _) as [o |]; simpl.
  - split; [intros b Hb; destruct (Nat.eqb_spec b g); [contradiction | reflexivity] |].
    rewrite Nat.eqb_refl. simpl.
    split; [reflexivity |]. split; [reflexivity |]. split; [reflexivity |].
    split; [reflexivity |]. split; [reflexivity |]. split; [reflexivity |].
    intro H. exact (Hwf _ eq_refl H).
  - repeat (split; [reflexivity |]). auto.
Qed.

(** ** Names are resolved when a task is loaded *)

(** X11.  The loader closure of [_createTaskLoaderFn] reads the config when
    it runs: if the group's config object is given new [tasks] settings
    after an action was added, [loadTask] registers the action, in both
    revisions, under the name the new settings give it. *)
Theorem loadTask_uses_settings_at_load_time (g : addr) (actionName : string) (w : world)
    (settings : BuildConfig.tasks_settings) :
  wf_group w g ->
  In actionName (listActionNames g w) ->
  let w2 := assign_tasks (config (groups w g)) settings w in
  exists t,
    name t = BuildConfig.createTaskName {| BuildConfig.tasks := settings |}
               (groupName (groups w g)) (VString actionName) VUndefined /\
    Part005.loadTask g actionName w2 = Normal (RValue (VString (name t))) (gulp_task t w2) /\
    Types.loadTask g actionName w2 = Normal (RValue VUndefined) (gulp_task t w2).
Proof.
  intros Hwf Hin w2. apply listActionNames_registered in Hin. destruct Hin as [f Hf].
  destruct (wf_group_own _ _ _ _ Hwf Hf) as [Hthis Hname].
  exists (loader_task f w2). split; [| split].
  - simpl. unfold createTaskName. rewrite Hthis, Hname. simpl.
    now rewrite Nat.eqb_refl.
  - now apply Part005_loadTask_own.
  - now apply Types_loadTask_own.
Qed.

Lemma loadTask_uses_settings_at_load_time_witness :
  let w2 := assign_tasks shared_config
              {| BuildConfig.defaultPrefixName := VString "ks";
                 BuildConfig.groupBeforeAction := false |}
              (world_of (less_group initial)) in
  exists t,
    name t = "ks:build:less"%string /\
    Part005.loadTask 0 "build" w2 = Normal (RValue (VString (name t))) (gulp_task t w2) /\
    Types.loadTask 0 "build" w2 = Normal (RValue VUndefined) (gulp_task t w2).
Proof.
  apply (loadTask_uses_settings_at_load_time 0 "build" (world_of (less_group initial))
           {| BuildConfig.defaultPrefixName := VString "ks";
              BuildConfig.groupBeforeAction := false |} less_group_wf).
  simpl. auto.
Defined.

(** ** Discovery of task modules *)

Lemma span_word_spec (s w r : string) :
  GroupLoaderScan.span_word s = (w, r) ->
  s = (w ++ r)%string /\ GroupLoaderScan.all_word w = true.
Proof.
  revert w r. induction s as [| c s IH]; intros w r; simpl.
  - intros [= <- <-]. auto.
  - destruct (GroupLoaderScan.word_char c) eqn:Ec.
    + destruct (GroupLoaderScan.span_word s) as [w0 r0].
      intros [= <- <-]. destruct (IH w0 r0 eq_refl) as [-> Hw].
      simpl. now rewrite Ec.
    + intros [= <- <-]. auto.
Qed.

Lemma span_word_suffix (w : string) :
  GroupLoaderScan.all_word w = true ->
  GroupLoaderScan.span_word (w ++ "-tasks.js") = (w, "-tasks.js"%string).
Proof.
  induction w as [| c w IH]; simpl; [reflexivity |].
  intro H. apply andb_true_iff in H. destruct H as [Hc Hw].
  now rewrite Hc, (IH Hw).
Qed.

Lemma TASK_MODULE_REGEX_match_iff (file name : string) :
  GroupLoaderScan.TASK_MODULE_REGEX_match file = Some name <->
  file = (name ++ "-tasks.js")%string /\ name <> ""%string /\
  GroupLoaderScan.all_word name = true.
Proof.
  unfold GroupLoaderScan.TASK_MODULE_REGEX_match. split.
  - destruct (GroupLoaderScan.span_word file) as [w r] eqn:E.
    destruct (span_word_spec _ _ _ E) as [-> Hw].
    destruct (w =? "")%string eqn:Ew; simpl; [discriminate |].
    destruct (r =? "-tasks.js")%string eqn:Er; [| discriminate].
    apply String.eqb_eq in Er. apply String.eqb_neq in Ew.
    intros [= <-]. subst r. auto.
  - intros [-> [Hne Hw]]. rewrite (span_word_suffix _ Hw).
    apply String.eqb_neq in Hne. now rewrite Hne.
Qed.

(** X12.  [TASK_MODULE_REGEX] ([/^(\w+)\-tasks\.js$/]): a file name matches
    with group name [name] exactly when it is [name + "-tasks.js"] and
    [name] is a non-empty run of letters, digits and underscores; so the
    group name of a module file determines the file, and a name with a dash
    or a dot in it is never found. *)
Theorem TASK_MODULE_REGEX_round_trip (file name : string) :
  (GroupLoaderScan.TASK_MODULE_REGEX_match file = Some name <->
   file = (name ++ "-tasks.js")%string /\ name <> ""%string /\
   GroupLoaderScan.all_word name = true) /\
  GroupLoaderScan.TASK_MODULE_REGEX_match (name ++ "-tasks.js") =
    (if negb (name =? "")%string && GroupLoaderScan.all_word name
     then Some name else None).
Proof.
  split; [apply TASK_MODULE_REGEX_match_iff |].
  destruct (name =? "")%string eqn:En; simpl.
  - apply String.eqb_eq in En. now subst.
  - destruct (GroupLoaderScan.all_word name) eqn:Hw.
    + apply TASK_MODULE_REGEX_match_iff. apply String.eqb_neq in En. auto.
    + destruct (GroupLoaderScan.TASK_MODULE_REGEX_match _) as [n |] eqn:E; [| reflexivity].
      apply TASK_MODULE_REGEX_match_iff in E. destruct E as [E [_ Hn]].
      apply append_inv_tail in E. subst n. congruence.
Qed.

Lemma availableTaskGroups_loop_flat_map (dirs acc : list string) :
  GroupLoaderScan.availableTaskGroups_loop dirs acc =
    acc ++ flat_map (fun file => match GroupLoaderScan.TASK_MODULE_REGEX_match file with
                                 | Some n => [n]
                                 | None => []
                                 end) dirs.
Proof.
  revert acc. induction dirs as [| file dirs IH]; intro acc; simpl.
  - now rewrite app_nil_r.
  - destruct (GroupLoaderScan.TASK_MODULE_REGEX_match file); rewrite IH.
    + now rewrite <- app_assoc.
    + reflexivity.
Qed.

Lemma availableTaskGroups_In (dirs : list string) (name : string) :
  In name (GroupLoaderScan.availableTaskGroups dirs) <->
  In (name ++ "-tasks.js")%string dirs /\ name <> ""%string /\
  GroupLoaderScan.all_word name = true.
Proof.
  unfold GroupLoaderScan.availableTaskGroups.
  rewrite availableTaskGroups_loop_flat_map. simpl. rewrite in_flat_map. split.
  - intros [file [Hin Hm]].
    destruct (GroupLoaderScan.TASK_MODULE_REGEX_match file) as [n |] eqn:E; [| destruct Hm].
    destruct Hm as [-> | []].
    apply TASK_MODULE_REGEX_match_iff in E. destruct E as [-> H]. auto.
  - intros [Hin H]. exists (name ++ "-tasks.js")%string. split; [assumption |].
    rewrite (proj2 (TASK_MODULE_REGEX_match_iff _ name)); simpl; auto.
Qed.

(** X13.  [GroupLoader.prototype.availableTaskGroups] and [_getModuleName]:
    a group name is reported exactly when the directory holds
    [name + "-tasks.js"] and [name] is a non-empty run of word characters;
    the module name [getTaskGroup] requires for a reported group is, with
    [".js"] appended, the loader's directory followed by that file name;
    and a directory without repeated entries gives a list without
    repeated group names. *)
Theorem availableTaskGroups_finds_task_modules (this : GroupLoader.t) (dirs : list string)
    (name : string) :
  (In name (GroupLoaderScan.availableTaskGroups dirs) <->
   In (name ++ "-tasks.js")%string dirs /\ name <> ""%string /\
   GroupLoaderScan.all_word name = true) /\
  (GroupLoader._getModuleName this name ++ ".js")%string =
    (GroupLoader.modulesDir this ++ (name ++ "-tasks.js"))%string /\
  (NoDup dirs -> NoDup (GroupLoaderScan.availableTaskGroups dirs)).
Proof.
  split; [apply availableTaskGroups_In |]. split.
  - unfold GroupLoader._getModuleName. now rewrite !append_assoc.
  - clear name. intro Hnd. induction Hnd as [| file dirs Hfile Hnd IH].
    + constructor.
    + unfold GroupLoaderScan.availableTaskGroups in *.
      rewrite availableTaskGroups_loop_flat_map in *. simpl in *.
      destruct (GroupLoaderScan.TASK_MODULE_REGEX_match file) as [n |] eqn:E;
        [| exact IH].
      simpl. constructor; [| exact IH].
      intro Hin.
      assert (Hin' : In n (GroupLoaderScan.availableTaskGroups dirs)).
      { unfold GroupLoaderScan.availableTaskGroups.
        now rewrite availableTaskGroups_loop_flat_map. }
      apply availableTaskGroups_In in Hin'. destruct Hin' as [Hd _].
      apply TASK_MODULE_REGEX_match_iff in E. destruct E as [-> _]. contradiction.
Qed.

(** ** Loading groups *)

Lemma getTaskGroup_returns (fs : GroupLoader.modules) (ld ld' : GroupLoader.t)
    (n : string) (r : GroupLoader.result) (w w' : world) :
  GroupLoader.getTaskGroup fs ld n w = Normal (r, ld') w' ->
  (r = GroupLoader.Inherited n /\ ld' = ld /\ inherited ObjectPrototype n = true /\
   getOwn n (GroupLoader._taskGroups ld) = None /\ w' = w) \/
  (exists a, r = GroupLoader.Group a /\
             getOwn n (GroupLoader._taskGroups ld') = Some a /\
             (getOwn n (GroupLoader._taskGroups ld) = Some a /\ ld' = ld /\ w' = w \/
              getOwn n (GroupLoader._taskGroups ld) = None /\
              GroupLoader._taskGroups ld' = putOwn n a (GroupLoader._taskGroups ld))).
Proof.
  unfold GroupLoader.getTaskGroup.
  destruct (getOwn n (GroupLoader._taskGroups ld)) as [a |] eqn:Hown.
  { intros [= <- <- <-]. right. exists a.
    split; [reflexivity |]. split; [assumption |]. left. auto. }
  destruct ((n =? "__proto__")%string || mem n Object_prototype_methods) eqn:Hinh.
  { intros [= <- <- <-]. left. unfold inherited. rewrite Hinh. simpl.
    repeat split; reflexivity. }
  unfold bind, GroupLoader.require.
  destruct (fs _) as [f |]; [| discriminate].
  destruct (tasksModuleFn_call f _ _ _ _) as [a w1 | e w1]; [| discriminate].
  intros [= <- <- <-]. right. exists a. simpl.
  split; [reflexivity |]. split; [apply getOwn_putOwn_same |]. right. auto.
Qed.

(** X14.  [GroupLoader.prototype.loadedTaskGroups] after [getTaskGroup]:
    when [getTaskGroup(groupName)] returns, the loaded groups are those
    loaded before and, if a task group was returned, [groupName]; a call
    that returns an inherited member adds no name. *)
Theorem loadedTaskGroups_after_getTaskGroup (fs : GroupLoader.modules)
    (ld ld' : GroupLoader.t) (groupName : string) (r : GroupLoader.result)
    (w w' : world) (k : string) :
  GroupLoader.getTaskGroup fs ld groupName w = Normal (r, ld') w' ->
  (In k (GroupLoader.loadedTaskGroups ld') <->
   In k (GroupLoader.loadedTaskGroups ld) \/
   (k = groupName /\ exists a, r = GroupLoader.Group a)).
Proof.
  intro H. unfold GroupLoader.loadedTaskGroups. rewrite !ownKeys_In.
  destruct (getTaskGroup_returns _ _ _ _ _ _ _ H)
    as [[-> [-> _]] | [a [-> [_ [[Hold [-> _]] | [Hnone Hnew]]]]]].
  - split; [auto |]. intros [Hk | [_ [a Ha]]]; [assumption | discriminate].
  - split; [auto |]. intros [Hk | [-> _]]; [assumption |].
    destruct (in_dec string_dec groupName (map fst (GroupLoader._taskGroups ld)))
      as [Hin | Hout]; [assumption |].
    apply getOwn_None_iff in Hout. congruence.
  - rewrite Hnew. rewrite keys_putOwn_absent by (now apply getOwn_None_iff).
    rewrite in_app_iff. simpl. split.
    + intros [Hk | [<- | []]]; eauto.
    + intros [Hk | [-> _]]; auto.
Qed.

Lemma loadedTaskGroups_after_getTaskGroup_witness :
  exists ld' w',
    GroupLoader.getTaskGroup GroupLoader.example_modules
      (GroupLoader.new "tasks/" shared_config VUndefined) "less" initial =
      Normal (GroupLoader.Group 0, ld') w' /\
    In "less"%string (GroupLoader.loadedTaskGroups ld').
Proof.
  eexists. eexists. split; [reflexivity |].
  apply (loadedTaskGroups_after_getTaskGroup GroupLoader.example_modules
           (GroupLoader.new "tasks/" shared_config VUndefined) _ "less"
           (GroupLoader.Group 0) initial _ "less" eq_refl).
  right. eauto.
Defined.

Lemma getAllAvailableTaskGroups_loop_spec (fs : GroupLoader.modules) (names : list string) :
  forall (ld : GroupLoader.t) (acc : list GroupLoader.result) (w : world)
         (rs : list GroupLoader.result) (ld' : GroupLoader.t) (w' : world),
    GroupLoaderScan.getAllAvailableTaskGroups_loop fs ld names acc w = Normal (rs, ld') w' ->
    exists rs0,
      rs = acc ++ rs0 /\
      Forall2 (fun n r =>
                 (r = GroupLoader.Inherited n /\ inherited ObjectPrototype n = true) \/
                 (exists a, r = GroupLoader.Group a /\
                            getOwn n (GroupLoader._taskGroups ld') = Some a))
              names rs0 /\
      (forall k b, getOwn k (GroupLoader._taskGroups ld) = Some b ->
                   getOwn k (GroupLoader._taskGroups ld') = Some b).
Proof.
  induction names as [| n names IH]; intros ld acc w rs ld' w'; simpl.
  - intros [= <- <- <-]. exists []. rewrite app_nil_r. auto.
  - unfold bind.
    destruct (GroupLoader.getTaskGroup fs ld n w) as [[r ld1] w1 | e w1] eqn:E;
      [| discriminate].
    simpl. intro H. destruct (IH _ _ _ _ _ _ H) as [rs1 [-> [Hall Hmono]]].
    exists (r :: rs1). rewrite <- app_assoc. split; [reflexivity |]. split.
    + constructor; [| exact Hall].
      destruct (getTaskGroup_returns _ _ _ _ _ _ _ E)
        as [[-> [_ [Hinh _]]] | [a [-> [Hget _]]]]; [left; auto |].
      right. exists a. auto.
    + intros k b Hk. apply Hmono. eapply getTaskGroup_keeps_entries; eauto.
Qed.

(** X15.  [GroupLoader.prototype.getAllAvailableTaskGroups]: when it
    returns, it returns one result per available group, in the order of
    [availableTaskGroups]; each is the task group now cached under that
    group's name, or, for a name [_taskGroups] inherits, the inherited
    member; and the groups cached before the call are still cached. *)
Theorem getAllAvailableTaskGroups_one_per_group (fs : GroupLoader.modules)
    (this this' : GroupLoader.t) (dirs : list string)
    (rs : list GroupLoader.result) (w w' : world) :
  GroupLoaderScan.getAllAvailableTaskGroups fs this dirs w = Normal (rs, this') w' ->
  Forall2 (fun n r =>
             (r = GroupLoader.Inherited n /\ inherited ObjectPrototype n = true) \/
             (exists a, r = GroupLoader.Group a /\
                        getOwn n (GroupLoader._taskGroups this') = Some a))
          (GroupLoaderScan.availableTaskGroups dirs) rs /\
  length rs = length (GroupLoaderScan.availableTaskGroups dirs) /\
  (forall k b, getOwn k (GroupLoader._taskGroups this) = Some b ->
               getOwn k (GroupLoader._taskGroups this') = Some b).
Proof.
  intro H. apply getAllAvailableTaskGroups_loop_spec in H.
  destruct H as [rs0 [-> [Hall Hmono]]]. simpl.
  split; [exact Hall |]. split; [| exact Hmono].
  symmetry. eapply Forall2_length; eauto.
Qed.

Lemma getAllAvailableTaskGroups_one_per_group_witness :
  exists ld' w',
    GroupLoaderScan.getAllAvailableTaskGroups GroupLoader.example_modules
      (GroupLoader.new "tasks/" shared_config VUndefined)
      [ "less-tasks.js"; "README.md"; "toString-tasks.js" ]%string initial =
      Normal ([ GroupLoader.Group 0; GroupLoader.Inherited "toString" ], ld') w' /\
    length [ GroupLoader.Group 0; GroupLoader.Inherited "toString" ] =
      length (GroupLoaderScan.availableTaskGroups
                [ "less-tasks.js"; "README.md"; "toString-tasks.js" ]%string).
Proof.
  eexists. eexists. split; [reflexivity |].
  apply (getAllAvailableTaskGroups_one_per_group GroupLoader.example_modules
           (GroupLoader.new "tasks/" shared_config VUndefined) _
           [ "less-tasks.js"; "README.md"; "toString-tasks.js" ]%string
           _ initial _ eq_refl).
Defined.

Lemma addAction_gulp (a : addr) (args : addAction_arguments) (w : world) :
  gulp (world_of (addAction a args w)) = gulp w.
Proof.
  unfold addAction. destruct (addAction_parameters args) as [[k deps] f].
  destruct (set _ k _); reflexivity.
Qed.

Lemma less_actions_leaves_host_alone : leaves_host_alone less_actions.
Proof.
  intros a w. unfold less_actions, bind.
  pose proof (addAction_gulp a (Args2 "build" (TaskFn 1)) w) as H1.
  destruct (addAction a (Args2 "build" (TaskFn 1)) w) as [[] w1 | e w1]; simpl in H1.
  - now rewrite addAction_gulp.
  - exact H1.
Qed.

Lemma tasksModuleFn_lazy_gulp (f : tasksModuleFn) (config : option cfg_ref)
    (ignored : list value) (w : world) :
  (forall cb, addActionsFn f = Some cb -> leaves_host_alone cb) ->
  gulp (world_of (tasksModuleFn_call f (VBool true) config ignored w)) = gulp w.
Proof.
  intro Hcb. unfold tasksModuleFn_call.
  destruct (made_by f);
    unfold Types.tasksModuleFn_call, Part005.tasksModuleFn_call, bind, new, ret, throw;
    destruct (alloc_group w _) as [a w1] eqn:Ea;
    assert (Hw1 : gulp w1 = gulp w)
      by (unfold alloc_group in Ea; injection Ea as _ <-; reflexivity);
    destruct (addActionsFn f) as [cb |]; simpl; try exact Hw1;
    specialize (Hcb cb eq_refl a w1);
    destruct (cb a w1) as [[] w2 | e w2]; simpl in *; congruence.
Qed.

(** X16.  [GroupLoader.prototype.getTaskGroup] loads lazily: it calls the
    tasks module function with [lazyLoad = true], so when the callbacks of
    the modules make no call to the host themselves, [getTaskGroup]
    registers no task, whether it finds the group cached, loads it, or
    throws. *)
Theorem getTaskGroup_registers_nothing (fs : GroupLoader.modules) (ld : GroupLoader.t)
    (groupName : string) (w : world) :
  (forall path f cb, fs path = Some f -> addActionsFn f = Some cb -> leaves_host_alone cb) ->
  gulp (world_of (GroupLoader.getTaskGroup fs ld groupName w)) = gulp w.
Proof.
  intro Hcb. unfold GroupLoader.getTaskGroup.
  destruct (getOwn groupName _); [reflexivity |].
  destruct (_ || _); [reflexivity |].
  unfold bind, GroupLoader.require.
  destruct (fs _) as [f |] eqn:Hf; [| reflexivity].
  pose proof (tasksModuleFn_lazy_gulp f (Some (GroupLoader.config ld)) []
                (log_require (GroupLoader._getModuleName ld groupName) w)
                (fun cb => Hcb _ f cb Hf)) as H.
  destruct (tasksModuleFn_call f _ _ _ _); exact H.
Qed.

Lemma getTaskGroup_registers_nothing_witness :
  gulp (world_of (GroupLoader.getTaskGroup GroupLoader.example_modules
                    (GroupLoader.new "tasks/" shared_config VUndefined) "less" initial)) = [].
Proof.
  apply (getTaskGroup_registers_nothing GroupLoader.example_modules
           (GroupLoader.new "tasks/" shared_config VUndefined) "less" initial).
  intros path f cb Hf Hcb. unfold GroupLoader.example_modules in Hf.
  destruct (path =? "tasks/less-tasks")%string.
  - injection Hf as <-. injection Hcb as <-. exact less_actions_leaves_host_alone.
  - destruct (path =? "tasks/toString-tasks")%string; [| discriminate].
    injection Hf as <-. injection Hcb as <-. exact less_actions_leaves_host_alone.
Defined.

(** The groups [getTaskGroup] loads were made by part_005: when it
    returns a group for a name that was not cached, the module it required
    is one made by part_005's [createTasksModule]. *)
Lemma getTaskGroup_loads_part_005_groups (fs : GroupLoader.modules) (ld ld' : GroupLoader.t)
    (groupName : string) (a : addr) (w w' : world) :
  getOwn groupName (GroupLoader._taskGroups ld) = None ->
  GroupLoader.getTaskGroup fs ld groupName w = Normal (GroupLoader.Group a, ld') w' ->
  exists f, fs (GroupLoader._getModuleName ld groupName) = Some f /\ made_by f = part_005.
Proof.
  intros Hown. unfold GroupLoader.getTaskGroup. rewrite Hown.
  destruct (_ || _); [discriminate |].
  unfold bind, GroupLoader.require.
  destruct (fs _) as [f |]; [| discriminate].
  intro H. exists f. split; [reflexivity |].
  unfold tasksModuleFn_call in H. destruct (made_by f); [| reflexivity].
  exfalso. revert H.
  unfold Types.tasksModuleFn_call, bind, new, throw.
  destruct (alloc_group _ _) as [b w1].
  destruct (addActionsFn f) as [cb |]; [destruct (cb b w1) |]; discriminate.
Qed.

(** X17.  [KitchenSink.prototype.addTask]: when the group loader returns a
    task group for [groupName] and [actionName] is one of its actions,
    [addTask] registers that action with the host under the group's
    [createTaskName(actionName)], returns that name and keeps the loader's
    cache. *)
Theorem addTask_registers_action (fs : GroupLoader.modules) (this : KitchenSink.t)
    (groupName actionName : string) (a : addr) (ld' : GroupLoader.t) (w w' : world) :
  GroupLoader.getTaskGroup fs (KitchenSink._groupLoader this) groupName w =
    Normal (GroupLoader.Group a, ld') w' ->
  wf_group w' a ->
  In actionName (listActionNames a w') ->
  let this' := {| KitchenSink.config := KitchenSink.config this;
                  KitchenSink._groupLoader := ld' |} in
  exists t,
    name t = createTaskName a actionName w' /\
    KitchenSink.addTask fs this groupName actionName w =
      Normal (RValue (VString (createTaskName a actionName w')), this') (gulp_task t w').
Proof.
  intros Hget Hwf Hin this'. apply listActionNames_registered in Hin.
  destruct Hin as [f Hf]. destruct (wf_group_own _ _ _ _ Hwf Hf) as [Hthis Hname].
  exists (loader_task f w').
  assert (Hn : name (loader_task f w') = createTaskName a actionName w').
  { simpl. now rewrite Hthis, Hname. }
  split; [exact Hn |].
  unfold KitchenSink.addTask, bind. rewrite Hget. simpl.
  rewrite (Part005_loadTask_own _ _ _ _ Hf), Hn. reflexivity.
Qed.

Lemma addTask_registers_action_witness :
  exists ks' w',
    KitchenSink.addTask GroupLoader.example_modules (KitchenSink.new "tasks/")
      "less" "hint" initial =
      Normal (RValue (VString "less:hint"), ks') w' /\
    map name (gulp w') = [ "less:hint"%string ].
Proof.
  destruct (addTask_registers_action GroupLoader.example_modules (KitchenSink.new "tasks/")
              "less" "hint" 0 _ initial _ eq_refl) as [t [Hn H]].
  - split; [repeat constructor; simpl; intuition discriminate | repeat constructor].
  - simpl. auto.
  - eexists. eexists. split; [exact H |].
    simpl. rewrite Hn. reflexivity.
Defined.

(** X18.  [KitchenSink.prototype.addTasks]: when the group loader returns
    a task group for [groupName], [addTasks] registers one task per action
    of the group, in the order of [listActionNames], each under the
    group's [createTaskName] of its action, returns these names and keeps
    the loader's cache. *)
Theorem addTasks_registers_every_action (fs : GroupLoader.modules) (this : KitchenSink.t)
    (groupName : string) (a : addr) (ld' : GroupLoader.t) (w w' : world) :
  GroupLoader.getTaskGroup fs (KitchenSink._groupLoader this) groupName w =
    Normal (GroupLoader.Group a, ld') w' ->
  wf_group w' a ->
  let this' := {| KitchenSink.config := KitchenSink.config this;
                  KitchenSink._groupLoader := ld' |} in
  let names := map (fun k => createTaskName a k w') (listActionNames a w') in
  exists ts,
    map name ts = names /\
    KitchenSink.addTasks fs this groupName w =
      Normal (Some (map (fun n => RValue (VString n)) names), this') (gulp_tasks ts w').
Proof.
  intros Hget Hwf this' names.
  destruct (Part005_loadAllTasks_registered a w' Hwf) as [Hall [_ Hnames]].
  eexists. split; [exact Hnames |].
  unfold KitchenSink.addTasks, bind. rewrite Hget. simpl. rewrite Hall.
  subst names. rewrite map_map. reflexivity.
Qed.

Lemma addTasks_registers_every_action_witness :
  exists ks' w',
    KitchenSink.addTasks GroupLoader.example_modules (KitchenSink.new "tasks/")
      "less" initial =
      Normal (Some [ RValue (VString "less:build"); RValue (VString "less:hint") ], ks') w' /\
    map name (gulp w') = [ "less:build"%string; "less:hint"%string ].
Proof.
  destruct (addTasks_registers_every_action GroupLoader.example_modules
              (KitchenSink.new "tasks/") "less" 0 _ initial _ eq_refl) as [ts [Hn H]].
  - split; [repeat constructor; simpl; intuition discriminate | repeat constructor].
  - eexists. eexists. split; [exact H |].
    unfold gulp_tasks. simpl. rewrite Hn. reflexivity.
Defined.

(** X19.  [KitchenSink.prototype.addTask] and [addTasks] with a group name
    that [_taskGroups] inherits from [Object.prototype] and that was never
    cached: [getTaskGroup] hands back the inherited member, which has no
    [loadTask] or [loadAllTasks], so both calls throw a [TypeError]; no
    module is required and nothing is registered or created. *)
Theorem addTask_inherited_group_throws (fs : GroupLoader.modules)
    (this : KitchenSink.t) (groupName actionName : string) (w : world) :
  inherited ObjectPrototype groupName = true ->
  getOwn groupName (GroupLoader._taskGroups (KitchenSink._groupLoader this)) = None ->
  KitchenSink.addTask fs this groupName actionName w = Throw TypeError w /\
  KitchenSink.addTasks fs this groupName w = Throw TypeError w.
Proof.
  intros Hinh Hown. unfold inherited in Hinh. rewrite orb_false_r in Hinh.
  unfold KitchenSink.addTask, KitchenSink.addTasks, bind, GroupLoader.getTaskGroup.
  rewrite Hown, Hinh. split; reflexivity.
Qed.

Lemma addTask_inherited_group_throws_witness :
  KitchenSink.addTask GroupLoader.example_modules (KitchenSink.new "tasks/")
    "toString" "build" initial = Throw TypeError initial /\
  KitchenSink.addTasks GroupLoader.example_modules (KitchenSink.new "tasks/")
    "toString" initial = Throw TypeError initial.
Proof.
  apply (addTask_inherited_group_throws GroupLoader.example_modules
           (KitchenSink.new "tasks/") "toString" "build" initial); reflexivity.
Defined.

Lemma found_in_In (results : list string) (severity : string) :
  LessPipes.found_in results severity = true <-> In severity results.
Proof.
  induction results as [| r rest IH]; simpl; [split; [discriminate | tauto] |].
  destruct (String.eqb_spec r severity) as [-> | Hne]; [tauto |].
  rewrite IH. split; [auto |]. intros [H | H]; [contradiction | exact H].
Qed.

(** X20.  The filter function made by [createHintSeverityCallbackFn]
    never filters a file out; it calls the callback with the file exactly
    when the hinter reports a positive [resultCount] and one of the
    results has the severity, and then once, however many results have
    it. *)
Theorem createHintSeverityCallbackFn_calls_once (severity : string)
    (file : LessPipes.lesshint) :
  let called := snd (LessPipes.createHintSeverityCallbackFn severity file) in
  fst (LessPipes.createHintSeverityCallbackFn severity file) = true /\
  (called = [ file ] <->
   (0 < LessPipes.resultCount file)%Z /\ In severity (LessPipes.results file)) /\
  (called = [] <->
   ~ ((0 < LessPipes.resultCount file)%Z /\ In severity (LessPipes.results file))).
Proof.
  unfold LessPipes.createHintSeverityCallbackFn, LessPipes.createFilterCallbackFn,
    LessPipes.createHintSeverityCheckFn.
  destruct (Z.ltb_spec 0 (LessPipes.resultCount file)) as [Hpos | Hneg].
  - destruct (LessPipes.found_in _ _) eqn:E; simpl.
    + apply found_in_In in E. split; [reflexivity |]. split; split; auto.
      * discriminate.
      * intro H. exfalso. apply H. auto.
    + assert (Hno : ~ In severity (LessPipes.results file)).
      { intro H. apply found_in_In in H. congruence. }
      split; [reflexivity |]. split; split; try discriminate; tauto.
  - simpl. split; [reflexivity |]. split; split.
    + discriminate.
    + intros [H _]. lia.
    + intros _ [H _]. lia.
    + reflexivity.
Qed.

(** X21.  The function made by part_005's [createTasksModule], called
    with a falsy [lazyLoad]: when the callback returns and leaves the new
    group with the shape [addAction] gives it, the call returns the new
    group and has registered one task per action, in the order of
    [listActionNames], each under the group's [createTaskName] of its
    action. *)
Theorem Part005_tasksModuleFn_eager (groupName : value) (cb : addr -> M unit)
    (lazyLoad : value) (config : option cfg_ref) (ignored : list value) (w w1 : world) :
  truthy lazyLoad = false ->
  (tasks <- new groupName (match config with Some c => c | None => shared_config end) ;;
   cb tasks) w = Normal tt w1 ->
  wf_group w1 (next_group w) ->
  exists ts,
    Part005.tasksModuleFn_call groupName (Some cb) lazyLoad config ignored w =
      Normal (next_group w) (gulp_tasks ts w1) /\
    map name ts =
      map (fun k => createTaskName (next_group w) k w1) (listActionNames (next_group w) w1).
Proof.
  intros Hlazy Hcb Hwf.
  destruct (Part005_loadAllTasks_registered (next_group w) w1 Hwf) as [Hall [_ Hnames]].
  eexists. split; [| exact Hnames].
  unfold Part005.tasksModuleFn_call, bind, new, ret in *. rewrite Hlazy.
  destruct (alloc_group w _) as [a w0] eqn:Ea.
  assert (a = next_group w) by (unfold alloc_group in Ea; now injection Ea as <- _).
  subst a. rewrite Hcb. simpl. rewrite Hall. reflexivity.
Qed.

Lemma Part005_tasksModuleFn_eager_witness :
  exists w',
    Part005.tasksModuleFn_call (VString "less") (Some less_actions) VUndefined None []
      initial = Normal 0 w' /\
    map name (gulp w') = [ "less:build"%string; "less:hint"%string ].
Proof.
  destruct (Part005_tasksModuleFn_eager (VString "less") less_actions VUndefined None []
              initial _ eq_refl eq_refl) as [ts [H Hn]].
  - split; [repeat constructor; simpl; intuition discriminate | repeat constructor].
  - eexists. split; [exact H |].
    unfold gulp_tasks. simpl. rewrite Hn. reflexivity.
Defined.
